(** * Lakehouse monitoring notebook: the monitor lifecycle and its custom metrics

    A shallow embedding of
    [product_demos/DBSQL-Datawarehousing/lakehouse-monitor/01-Timeseries-monitor.py].

    The notebook is a client of a managed service.  Its cells are embedded as
    computations in a small monad that threads the notebook's global
    variables, lets a statement raise a Python exception, and records every
    observable action (service call, client construction, [time.sleep],
    [print]) in the order it happens.  The service is a parameter: the answer
    to the k-th call of each endpoint.  A [while] loop takes a bound on the
    number of iterations; a run that uses the bound up is still [Running]. *)

From Stdlib Require Import ZArith List String Ascii Bool Arith Lia.
Import ListNotations.
Local Open Scope string_scope.
Local Open Scope list_scope.

(** ** Values of the SDK *)

(** Modelled from the spec: [MonitorInfoStatus] is declared in the SDK
    ([databricks.sdk.service.catalog]), not in the notebook, which names its
    members [MONITOR_STATUS_PENDING] and [MONITOR_STATUS_ACTIVE].  The spec's
    data model adds FAILED; the SDK's two further members are kept, so that
    a status which is neither pending, active nor failed is a value too. *)
Inductive MonitorInfoStatus : Type :=
| MONITOR_STATUS_ACTIVE
| MONITOR_STATUS_DELETE_PENDING
| MONITOR_STATUS_ERROR
| MONITOR_STATUS_FAILED
| MONITOR_STATUS_PENDING.

(** Modelled from the spec: [MonitorRefreshInfoState] is declared in the SDK.
    The notebook names [PENDING], [RUNNING] and [SUCCESS]; the spec's data
    model adds FAILED, and the SDK's further member [CANCELED] is kept. *)
Inductive MonitorRefreshInfoState : Type :=
| CANCELED
| FAILED
| PENDING
| RUNNING
| SUCCESS.

(** Python's [==] on the members of an [Enum]. *)
Definition status_eqb (a b : MonitorInfoStatus) : bool :=
  match a, b with
  | MONITOR_STATUS_ACTIVE, MONITOR_STATUS_ACTIVE
  | MONITOR_STATUS_DELETE_PENDING, MONITOR_STATUS_DELETE_PENDING
  | MONITOR_STATUS_ERROR, MONITOR_STATUS_ERROR
  | MONITOR_STATUS_FAILED, MONITOR_STATUS_FAILED
  | MONITOR_STATUS_PENDING, MONITOR_STATUS_PENDING => true
  | _, _ => false
  end.

Definition state_eqb (a b : MonitorRefreshInfoState) : bool :=
  match a, b with
  | CANCELED, CANCELED
  | FAILED, FAILED
  | PENDING, PENDING
  | RUNNING, RUNNING
  | SUCCESS, SUCCESS => true
  | _, _ => false
  end.

(** [x in (a, b)]: membership in a tuple compares with [==]. *)
Definition state_in (x : MonitorRefreshInfoState)
    (l : list MonitorRefreshInfoState) : bool :=
  existsb (state_eqb x) l.

(** [MonitorTimeSeries(timestamp_col=..., granularities=...)]. *)
Record MonitorTimeSeries : Type := {
  timestamp_col : string;
  granularities : list string
}.

(** [MonitorInfo]: the fields the notebook reads. *)
Record MonitorInfo : Type := {
  status : MonitorInfoStatus;
  profile_metrics_table_name : string;
  drift_metrics_table_name : string
}.

(** [MonitorRefreshInfo]: the fields the notebook reads. *)
Record MonitorRefreshInfo : Type := {
  refresh_id : Z;
  state : MonitorRefreshInfoState
}.

Inductive MonitorMetricType : Type :=
| CUSTOM_METRIC_TYPE_AGGREGATE
| CUSTOM_METRIC_TYPE_DERIVED
| CUSTOM_METRIC_TYPE_DRIFT.

(** [pyspark.sql.types]: the one data type the notebook uses, and a field
    before its [.json()] rendering. *)
Inductive DataType : Type := DoubleType.

Record StructField : Type := {
  field_name : string;
  field_type : DataType
}.

(** [MonitorMetric(type=, name=, input_columns=, definition=,
    output_data_type=)]. *)
Record MonitorMetric : Type := {
  type_ : MonitorMetricType;
  name : string;
  input_columns : list string;
  definition : string;
  output_data_type : StructField
}.

(** ** Exceptions *)

(** What a statement of the notebook can raise: a failed [assert] (with its
    message, if it has one), an index out of range, and an error of the
    service client, with the service's error code and its text. *)
Inductive PyException : Type :=
| AssertionError (msg : option string)
| IndexError (msg : string)
| DatabricksError (error_code : string) (message : string).

(** [str(e)], what [print(e)] shows. *)
Definition str (e : PyException) : string :=
  match e with
  | AssertionError None => ""
  | AssertionError (Some m) => m
  | IndexError m => m
  | DatabricksError _ m => m
  end.

(** ** Observable actions *)

(** A client handle: [WorkspaceClient()] yields a new one at each call. *)
Definition Handle : Type := nat.

Record CreateRequest : Type := {
  create_table_name : string;
  create_time_series : MonitorTimeSeries;
  create_assets_dir : string;
  create_output_schema_name : string
}.

Record UpdateRequest : Type := {
  update_table_name : string;
  update_time_series : MonitorTimeSeries;
  update_custom_metrics : list MonitorMetric;
  update_output_schema_name : string
}.

Inductive Event : Type :=
| EvPrint (text : string)
| EvWorkspaceClient (h : Handle)
| EvCreate (h : Handle) (req : CreateRequest)
| EvGet (h : Handle) (table_name : string)
| EvListRefreshes (h : Handle) (table_name : string)
| EvGetRefresh (h : Handle) (table_name : string) (id : Z)
| EvUpdate (h : Handle) (req : UpdateRequest)
| EvRunRefresh (h : Handle) (table_name : string)
| EvSleep (secs : Z).

Definition is_get (e : Event) : bool :=
  match e with EvGet _ _ => true | _ => false end.

Definition is_get_refresh (e : Event) : bool :=
  match e with EvGetRefresh _ _ _ => true | _ => false end.

Definition is_sleep (e : Event) : bool :=
  match e with EvSleep _ => true | _ => false end.

Definition is_create (e : Event) : bool :=
  match e with EvCreate _ _ => true | _ => false end.

(** Number of events of a kind, and the seconds slept, in a trace. *)
Definition count (p : Event -> bool) (t : list Event) : nat :=
  List.length (filter p t).

Fixpoint slept (t : list Event) : Z :=
  match t with
  | [] => 0%Z
  | EvSleep d :: t' => (d + slept t')%Z
  | _ :: t' => slept t'
  end.

(** ** The service *)

(** The answers of the service: an exception or a value.  The endpoints that
    are polled answer by the number of calls made to them before. *)
Record Service : Type := {
  create_resp : CreateRequest -> PyException + MonitorInfo;
  get_resp : nat -> string -> PyException + MonitorInfo;
  list_refreshes_resp : string -> PyException + list MonitorRefreshInfo;
  get_refresh_resp : nat -> string -> Z -> PyException + MonitorRefreshInfo;
  update_resp : UpdateRequest -> PyException + MonitorInfo;
  run_refresh_resp : string -> PyException + MonitorRefreshInfo
}.

(** ** The notebook's state and the monad of its statements *)

(** The global variables that outlive a cell ([w], [lhm_monitor], unbound
    until a [create] or [update] returns) and the counters that index the
    service's answers and name the next client handle. *)
Record Globals : Type := {
  w : Handle;
  lhm_monitor : option MonitorInfo;
  next_handle : Handle;
  n_get : nat;
  n_get_refresh : nat
}.

Inductive Outcome (A : Type) : Type :=
| Returned (a : A)
| Raised (e : PyException)
| Running.

Arguments Returned {A} a.
Arguments Raised {A} e.
Arguments Running {A}.

Record Run (A : Type) : Type := {
  outcome : Outcome A;
  final : Globals;
  emitted : list Event
}.

Arguments outcome {A} r.
Arguments final {A} r.
Arguments emitted {A} r.

Definition M (A : Type) : Type := Globals -> Run A.

Definition ret {A} (a : A) : M A :=
  fun g => {| outcome := Returned a; final := g; emitted := [] |}.

Definition raise {A} (e : PyException) : M A :=
  fun g => {| outcome := Raised e; final := g; emitted := [] |}.

Definition emit (e : Event) : M unit :=
  fun g => {| outcome := Returned tt; final := g; emitted := [e] |}.

Definition bind {A B} (c : M A) (k : A -> M B) : M B :=
  fun g =>
    let r := c g in
    match outcome r with
    | Returned a =>
        let r' := k a (final r) in
        {| outcome := outcome r'; final := final r';
           emitted := emitted r ++ emitted r' |}
    | Raised e =>
        {| outcome := Raised e; final := final r; emitted := emitted r |}
    | Running =>
        {| outcome := Running; final := final r; emitted := emitted r |}
    end.

Notation "x <- c ;; k" := (bind c (fun x => k))
  (at level 61, c at next level, right associativity).
Notation "c ;; k" := (bind c (fun _ => k))
  (at level 61, right associativity).

(** [try: body  except Exception as e: handler(e)].  Every exception of
    [PyException] is an [Exception]. *)
Definition try_except {A} (body : M A) (handler : PyException -> M A) : M A :=
  fun g =>
    let r := body g in
    match outcome r with
    | Raised e =>
        let r' := handler e (final r) in
        {| outcome := outcome r'; final := final r';
           emitted := emitted r ++ emitted r' |}
    | _ => r
    end.

(** [while cond(a): a = body(a)], at most [fuel] iterations. *)
Fixpoint while_ {A} (fuel : nat) (cond : A -> bool) (body : A -> M A) (a : A)
    : M A :=
  if cond a then
    match fuel with
    | O => fun g => {| outcome := Running; final := g; emitted := [] |}
    | S fuel' => a' <- body a ;; while_ fuel' cond body a'
    end
  else ret a.

(** [assert test, msg]. *)
Definition assert_ (test : bool) (msg : option string) : M unit :=
  if test then ret tt else raise (AssertionError msg).

(** [time.sleep(secs)]. *)
Definition sleep (secs : Z) : M unit := emit (EvSleep secs).

(** [print(text)]. *)
Definition print (text : string) : M unit := emit (EvPrint text).

(** [l[0]]. *)
Definition index0 {A} (l : list A) : M A :=
  match l with
  | [] => raise (IndexError "list index out of range")
  | x :: _ => ret x
  end.

Definition answer {A} (ev : Event) (g : Globals) (r : PyException + A) : Run A :=
  match r with
  | inl e => {| outcome := Raised e; final := g; emitted := [ev] |}
  | inr a => {| outcome := Returned a; final := g; emitted := [ev] |}
  end.

Definition bump_get (g : Globals) : Globals :=
  {| w := w g; lhm_monitor := lhm_monitor g; next_handle := next_handle g;
     n_get := S (n_get g); n_get_refresh := n_get_refresh g |}.

Definition bump_get_refresh (g : Globals) : Globals :=
  {| w := w g; lhm_monitor := lhm_monitor g; next_handle := next_handle g;
     n_get := n_get g; n_get_refresh := S (n_get_refresh g) |}.

Definition set_lhm_monitor (m : MonitorInfo) : M unit :=
  fun g =>
    {| outcome := Returned tt;
       final := {| w := w g; lhm_monitor := Some m;
                   next_handle := next_handle g; n_get := n_get g;
                   n_get_refresh := n_get_refresh g |};
       emitted := [] |}.

(** [w = WorkspaceClient()]: a handle no earlier client has, bound to [w]. *)
Definition new_WorkspaceClient : M unit :=
  fun g =>
    {| outcome := Returned tt;
       final := {| w := next_handle g; lhm_monitor := lhm_monitor g;
                   next_handle := S (next_handle g); n_get := n_get g;
                   n_get_refresh := n_get_refresh g |};
       emitted := [EvWorkspaceClient (next_handle g)] |}.

(** ** Custom metrics (lines 275-369) *)

Definition avg_price_after_discount_agg : MonitorMetric :=
  {| type_ := CUSTOM_METRIC_TYPE_AGGREGATE;
     name := "avg_price_after_discount";
     input_columns := [":table"];
     definition := "avg(Price*(1-Discount))";
     output_data_type :=
       {| field_name := "avg_price_after_discount"; field_type := DoubleType |} |}.

Definition log_price_after_discount_derived : MonitorMetric :=
  {| type_ := CUSTOM_METRIC_TYPE_DERIVED;
     name := "log_price_after_discount";
     input_columns := [":table"];
     definition := "log(avg_price_after_discount)";
     output_data_type :=
       {| field_name := "log_price_after_discount"; field_type := DoubleType |} |}.

Definition variance_metric_agg : MonitorMetric :=
  {| type_ := CUSTOM_METRIC_TYPE_AGGREGATE;
     name := "variance";
     input_columns := ["TotalPurchaseAmount"; "Discount"];
     definition := "var_samp(`{{input_column}}`)";
     output_data_type := {| field_name := "variance"; field_type := DoubleType |} |}.

Definition std_metric_derived : MonitorMetric :=
  {| type_ := CUSTOM_METRIC_TYPE_DERIVED;
     name := "std";
     input_columns := ["TotalPurchaseAmount"; "Discount"];
     definition := "sqrt(variance)";
     output_data_type := {| field_name := "std"; field_type := DoubleType |} |}.

Definition std_delta_pct_drift : MonitorMetric :=
  {| type_ := CUSTOM_METRIC_TYPE_DRIFT;
     name := "std_delta_pct";
     input_columns := ["TotalPurchaseAmount"; "Discount"];
     definition := "100*({{current_df}}.std - {{base_df}}.std)/{{base_df}}.std";
     output_data_type :=
       {| field_name := "std_pct_delta"; field_type := DoubleType |} |}.

Definition log_price_after_discount_delta_drift : MonitorMetric :=
  {| type_ := CUSTOM_METRIC_TYPE_DRIFT;
     name := "log_price_after_discount_ratio";
     input_columns := [":table"];
     definition :=
       "{{current_df}}.log_price_after_discount/{{base_df}}.log_price_after_discount";
     output_data_type :=
       {| field_name := "log_price_after_discount_delta";
          field_type := DoubleType |} |}.

(** The [custom_metrics] argument of the update, lines 385-392. *)
Definition custom_metrics : list MonitorMetric :=
  [ avg_price_after_discount_agg;
    log_price_after_discount_derived;
    log_price_after_discount_delta_drift;
    variance_metric_agg;
    std_metric_derived;
    std_delta_pct_drift ].

(** The columns of [silver_transaction] that the notebook names: the
    timestamp column, the slicing column, the columns of the metric
    definitions and input columns, and the two payment columns of the text. *)
Definition raw_columns : list string :=
  [ "TransactionDate"; "Category"; "Price"; "Discount"; "TotalPurchaseAmount";
    "PreferredPaymentMethod"; "PaymentMethod" ].

(** ** Names in a metric expression *)

(** A [definition] is a text.  What it refers to is read off its words: a
    word is a maximal run of letters, digits and underscores; a word inside
    [{{ }}] is a template item ([input_column], [current_df], [base_df]); a
    word followed by an opening parenthesis is a function that is applied; a
    word that starts with a digit is a number; any other word is the name of
    a column or of a metric. *)
Module Expr.

Inductive Tok : Type :=
| Word (s : string)
| Sym (c : ascii).

Definition between (lo hi n : nat) : bool := (lo <=? n)%nat && (n <=? hi)%nat.

Definition is_digit (c : ascii) : bool := between 48 57 (nat_of_ascii c).

Definition is_word_char (c : ascii) : bool :=
  let n := nat_of_ascii c in
  between 48 57 n || between 65 90 n || between 97 122 n || (n =? 95)%nat.

Definition is_space (c : ascii) : bool :=
  let n := nat_of_ascii c in (n =? 32)%nat || between 9 13 n.

Definition flush (cur : string) : list Tok :=
  match cur with
  | EmptyString => []
  | _ => [Word cur]
  end.

Fixpoint tokens_from (cur : string) (s : string) : list Tok :=
  match s with
  | EmptyString => flush cur
  | String c rest =>
      if is_word_char c then tokens_from (cur ++ String c EmptyString)%string rest
      else flush cur ++ (if is_space c then [] else [Sym c]) ++ tokens_from "" rest
  end.

Definition tokens (s : string) : list Tok := tokens_from "" s.

Definition starts_with_digit (s : string) : bool :=
  match s with
  | EmptyString => false
  | String c _ => is_digit c
  end.

Definition is_sym (c : ascii) (t : Tok) : bool :=
  match t with
  | Sym c' => Ascii.eqb c c'
  | Word _ => false
  end.

Definition applied (rest : list Tok) : bool :=
  match rest with
  | t :: _ => is_sym "("%char t
  | [] => false
  end.

(** [depth] counts the braces that are open. *)
Fixpoint names_from (depth : nat) (ts : list Tok) : list string :=
  match ts with
  | [] => []
  | Word x :: rest =>
      if (depth =? 0)%nat && negb (starts_with_digit x) && negb (applied rest)
      then x :: names_from depth rest
      else names_from depth rest
  | Sym c :: rest =>
      if Ascii.eqb c "{"%char then names_from (S depth) rest
      else if Ascii.eqb c "}"%char then names_from (Nat.pred depth) rest
      else names_from depth rest
  end.

Fixpoint templates_from (depth : nat) (ts : list Tok) : list string :=
  match ts with
  | [] => []
  | Word x :: rest =>
      if (depth =? 0)%nat then templates_from depth rest
      else x :: templates_from depth rest
  | Sym c :: rest =>
      if Ascii.eqb c "{"%char then templates_from (S depth) rest
      else if Ascii.eqb c "}"%char then templates_from (Nat.pred depth) rest
      else templates_from depth rest
  end.

(** The names an expression refers to, and its template items. *)
Definition names (e : string) : list string := names_from 0 (tokens e).
Definition templates (e : string) : list string := templates_from 0 (tokens e).

End Expr.

Definition mem (x : string) (l : list string) : bool :=
  existsb (String.eqb x) l.

(** ** The metric registry *)

Module Registry.

Inductive ValidationError : Type :=
| NamingConflict (metric : string)
| TemplateNotAllowed (metric : string)
| UnknownReference (metric : string) (reference : string).

Definition derived_or_drift (m : MonitorMetric) : bool :=
  match type_ m with
  | CUSTOM_METRIC_TYPE_AGGREGATE => false
  | CUSTOM_METRIC_TYPE_DERIVED | CUSTOM_METRIC_TYPE_DRIFT => true
  end.

Section Validate.

(** The names of the metrics the service computes by default. *)
Variable builtin : string -> bool.

Definition known (earlier : list string) (r : string) : bool :=
  mem r earlier || builtin r.

Definition check (earlier : list string) (m : MonitorMetric)
    : option ValidationError :=
  if mem (name m) earlier then Some (NamingConflict (name m))
  else if derived_or_drift m then
    if mem "input_column" (Expr.templates (definition m))
    then Some (TemplateNotAllowed (name m))
    else
      match find (fun r => negb (known earlier r)) (Expr.names (definition m)) with
      | Some r => Some (UnknownReference (name m) r)
      | None => None
      end
  else None.

Fixpoint validate_from (earlier : list string) (batch : list MonitorMetric)
    : ValidationError + unit :=
  match batch with
  | [] => inr tt
  | m :: rest =>
      match check earlier m with
      | Some e => inl e
      | None => validate_from (earlier ++ [name m]) rest
      end
  end.

(** Modelled from the spec: [validate] is the batch check of the spec's metric
    registry (section 4.2); the notebook has no such function, it hands
    [custom_metrics] to the service.  The check goes through the batch in
    order and rejects a name that an earlier definition has, a DERIVED or
    DRIFT definition that uses the input-column template, and a DERIVED or
    DRIFT definition that refers to a name which no earlier definition has
    and which is not built in. *)
Definition validate (batch : list MonitorMetric) : ValidationError + unit :=
  validate_from [] batch.

(** The spec's words for the references of a batch: every name a DERIVED or
    DRIFT definition refers to is built in or is the name of a definition
    strictly earlier in the batch. *)
Definition references_resolved (batch : list MonitorMetric) : Prop :=
  forall i m r,
    nth_error batch i = Some m ->
    derived_or_drift m = true ->
    In r (Expr.names (definition m)) ->
    builtin r = true \/
    exists j m', (j < i)%nat /\ nth_error batch j = Some m' /\ name m' = r.

(** A batch that is valid in the other two respects: names are unique, and
    only AGGREGATE definitions use the input-column template. *)
Definition unique_names (batch : list MonitorMetric) : Prop :=
  NoDup (map name batch).

Definition templates_reserved (batch : list MonitorMetric) : Prop :=
  forall m, In m batch -> derived_or_drift m = true ->
            mem "input_column" (Expr.templates (definition m)) = false.

End Validate.

End Registry.

(** ** Services and states of the examples *)

Definition info_of (s : MonitorInfoStatus) : MonitorInfo :=
  {| status := s;
     profile_metrics_table_name := "main.demo.silver_transaction_profile_metrics";
     drift_metrics_table_name := "main.demo.silver_transaction_drift_metrics" |}.

(** A service that answers the k-th status fetch with [statuses k], lists
    [listed] as the monitor's refreshes, answers the k-th fetch of a refresh
    with the identifier asked for and the state [states k], and answers
    [create], [update] and [run_refresh] with [created], [updated] and
    [started]. *)
Definition scripted
    (created updated : PyException + MonitorInfo)
    (statuses : nat -> MonitorInfoStatus)
    (listed : list MonitorRefreshInfo)
    (states : nat -> MonitorRefreshInfoState)
    (started : MonitorRefreshInfo) : Service :=
  {| create_resp := fun _ => created;
     get_resp := fun k _ => inr (info_of (statuses k));
     list_refreshes_resp := fun _ => inr listed;
     get_refresh_resp := fun k _ id => inr {| refresh_id := id; state := states k |};
     update_resp := fun _ => updated;
     run_refresh_resp := fun _ => inr started |}.

Definition script {A} (l : list A) (last : A) (k : nat) : A := nth k l last.

(** The globals after line 91, [w = WorkspaceClient()]. *)
Definition g0 : Globals :=
  {| w := 0; lhm_monitor := None; next_handle := 1; n_get := 0;
     n_get_refresh := 0 |}.

Definition permission_denied : PyException :=
  DatabricksError "PERMISSION_DENIED"
    "User does not have USE SCHEMA on Schema 'main.demo'.".

(** The monitor and its refresh stay pending for ever. *)
Definition svc_stuck : Service :=
  scripted (inr (info_of MONITOR_STATUS_PENDING)) (inr (info_of MONITOR_STATUS_ACTIVE))
    (fun _ => MONITOR_STATUS_PENDING)
    [{| refresh_id := 7%Z; state := RUNNING |}]
    (fun _ => RUNNING)
    {| refresh_id := 8%Z; state := PENDING |}.

(** The monitor is pending at the first fetch and active at the second; its
    refreshes succeed at the second fetch. *)
Definition svc_ok : Service :=
  scripted (inr (info_of MONITOR_STATUS_PENDING)) (inr (info_of MONITOR_STATUS_ACTIVE))
    (script [MONITOR_STATUS_PENDING] MONITOR_STATUS_ACTIVE)
    [{| refresh_id := 7%Z; state := PENDING |};
     {| refresh_id := 5%Z; state := RUNNING |}]
    (script [RUNNING] SUCCESS)
    {| refresh_id := 8%Z; state := PENDING |}.

(** The monitor is pending at the first fetch and failed at the second. *)
Definition svc_failed : Service :=
  scripted (inr (info_of MONITOR_STATUS_PENDING)) (inr (info_of MONITOR_STATUS_FAILED))
    (script [MONITOR_STATUS_PENDING] MONITOR_STATUS_FAILED)
    []
    (script [RUNNING] FAILED)
    {| refresh_id := 8%Z; state := PENDING |}.

(** [create] and [update] are refused; the monitor, made earlier, is active. *)
Definition svc_denied : Service :=
  scripted (inl permission_denied) (inl permission_denied)
    (fun _ => MONITOR_STATUS_ACTIVE)
    [{| refresh_id := 7%Z; state := SUCCESS |}]
    (fun _ => SUCCESS)
    {| refresh_id := 8%Z; state := SUCCESS |}.

(** ** The notebook *)

Section Notebook.

(** [catalog] and [dbName] are bound by [%run ./_resources/01-DataGeneration];
    [cwd] is [os.getcwd()]. *)
Variables catalog dbName cwd : string.
Variable svc : Service.

Definition GRANULARITIES : list string := ["1 day"].
Definition SLICING_EXPRS : list string := ["Category='Toys'"].
Definition TABLE_NAME : string :=
  (catalog ++ "." ++ dbName ++ ".silver_transaction")%string.
Definition TIMESTAMP_COL : string := "TransactionDate".

(** The calls [w.quality_monitors.*], made through the client bound to [w]
    at the time of the call. *)
Definition quality_monitors_create (req : CreateRequest) : M MonitorInfo :=
  fun g => answer (EvCreate (w g) req) g (create_resp svc req).

Definition quality_monitors_get (table_name : string) : M MonitorInfo :=
  fun g =>
    answer (EvGet (w g) table_name) (bump_get g)
           (get_resp svc (n_get g) table_name).

Definition quality_monitors_list_refreshes (table_name : string)
    : M (list MonitorRefreshInfo) :=
  fun g =>
    answer (EvListRefreshes (w g) table_name) g
           (list_refreshes_resp svc table_name).

Definition quality_monitors_get_refresh (table_name : string) (id : Z)
    : M MonitorRefreshInfo :=
  fun g =>
    answer (EvGetRefresh (w g) table_name id) (bump_get_refresh g)
           (get_refresh_resp svc (n_get_refresh g) table_name id).

Definition quality_monitors_update (req : UpdateRequest) : M MonitorInfo :=
  fun g => answer (EvUpdate (w g) req) g (update_resp svc req).

Definition quality_monitors_run_refresh (table_name : string)
    : M MonitorRefreshInfo :=
  fun g =>
    answer (EvRunRefresh (w g) table_name) g (run_refresh_resp svc table_name).

(** Lines 96-112: create the monitor. *)
Definition create_request : CreateRequest :=
  {| create_table_name := TABLE_NAME;
     create_time_series :=
       {| timestamp_col := TIMESTAMP_COL; granularities := GRANULARITIES |};
     create_assets_dir := cwd;
     create_output_schema_name := (catalog ++ "." ++ dbName)%string |}.

Definition create_cell : M unit :=
  print ("Creating monitor for " ++ TABLE_NAME)%string ;;
  new_WorkspaceClient ;;
  try_except
    (m <- quality_monitors_create create_request ;; set_lhm_monitor m)
    (fun lhm_exception => print (str lhm_exception)).

(** Lines 129-134, "Wait for monitor to be created": the spec's
    [awaitActive].  The notebook has the statements at the top level of a
    cell; the interval and the absence of a timeout are as written there. *)
Definition monitor_pending (info : MonitorInfo) : bool :=
  status_eqb (status info) MONITOR_STATUS_PENDING.

Definition poll_monitor (_ : MonitorInfo) : M MonitorInfo :=
  info <- quality_monitors_get TABLE_NAME ;;
  sleep 10 ;;
  ret info.

Definition awaitActive (fuel : nat) : M MonitorInfo :=
  info <- quality_monitors_get TABLE_NAME ;;
  info <- while_ fuel monitor_pending poll_monitor info ;;
  assert_ (status_eqb (status info) MONITOR_STATUS_ACTIVE)
          (Some "Error creating monitor") ;;
  ret info.

(** Lines 140-144 and, word for word, lines 411-415: wait for a refresh, the
    spec's [awaitRefresh]. *)
Definition refresh_pending (run_info : MonitorRefreshInfo) : bool :=
  state_in (state run_info) [PENDING; RUNNING].

Definition poll_refresh (run_info : MonitorRefreshInfo) : M MonitorRefreshInfo :=
  run_info' <- quality_monitors_get_refresh TABLE_NAME (refresh_id run_info) ;;
  sleep 30 ;;
  ret run_info'.

Definition awaitRefresh (fuel : nat) (run_info : MonitorRefreshInfo)
    : M MonitorRefreshInfo :=
  run_info <- while_ fuel refresh_pending poll_refresh run_info ;;
  assert_ (state_eqb (state run_info) SUCCESS) (Some "Monitor refresh failed") ;;
  ret run_info.

(** Lines 136-144: the initial refresh, the first of the monitor's list. *)
Definition await_initial_refresh (fuel : nat) : M MonitorRefreshInfo :=
  refreshes <- quality_monitors_list_refreshes TABLE_NAME ;;
  assert_ (Nat.ltb 0 (List.length refreshes)) None ;;
  run_info <- index0 refreshes ;;
  awaitRefresh fuel run_info.

(** Lines 128-144, the whole cell. *)
Definition wait_cell (fuel : nat) : M MonitorRefreshInfo :=
  awaitActive fuel ;;
  await_initial_refresh fuel.

(** Lines 379-397: update the monitor with the custom metrics. *)
Definition update_request : UpdateRequest :=
  {| update_table_name := TABLE_NAME;
     update_time_series :=
       {| timestamp_col := TIMESTAMP_COL; granularities := GRANULARITIES |};
     update_custom_metrics := custom_metrics;
     update_output_schema_name := (catalog ++ "." ++ dbName)%string |}.

Definition update_cell : M unit :=
  try_except
    (m <- quality_monitors_update update_request ;; set_lhm_monitor m)
    (fun lhm_exception => print (str lhm_exception)).

(** Lines 406-415: request a refresh and wait for it. *)
Definition refresh_cell (fuel : nat) : M MonitorRefreshInfo :=
  run_info <- quality_monitors_run_refresh TABLE_NAME ;;
  new_WorkspaceClient ;;
  awaitRefresh fuel run_info.

(** What the service answers to the k-th fetch, when it answers. *)
Definition get_status (k : nat) : option MonitorInfoStatus :=
  match get_resp svc k TABLE_NAME with
  | inr info => Some (status info)
  | inl _ => None
  end.

Definition get_refresh_state (k : nat) (id : Z) : option MonitorRefreshInfoState :=
  match get_refresh_resp svc k TABLE_NAME id with
  | inr run_info => Some (state run_info)
  | inl _ => None
  end.

(** The events of one round of each loop. *)
Definition monitor_round (g : Globals) : list Event :=
  [EvGet (w g) TABLE_NAME; EvSleep 10].

Definition refresh_round (g : Globals) (id : Z) : list Event :=
  [EvGetRefresh (w g) TABLE_NAME id; EvSleep 30].

(** From the globals [g] on, the first [n] fetches are answered, and with a
    status (a state) that keeps the loop going. *)
Definition monitor_pending_for (n : nat) (g : Globals) : Prop :=
  forall k, k < n -> get_status (n_get g + k) = Some MONITOR_STATUS_PENDING.

Definition refresh_pending_for (n : nat) (g : Globals) : Prop :=
  forall k id, k < n ->
    exists run_info,
      get_refresh_resp svc (n_get_refresh g + k) TABLE_NAME id = inr run_info /\
      refresh_pending run_info = true.

(** After [n] fetches, the fetch of any refresh is answered with state [s]. *)
Definition refresh_settles_at (n : nat) (g : Globals)
    (s : MonitorRefreshInfoState) : Prop :=
  forall id, get_refresh_state (n_get_refresh g + n) id = Some s.

(** The service answers a fetch of a refresh with the refresh asked for. *)
Definition answers_the_refresh_asked : Prop :=
  forall k id run_info,
    get_refresh_resp svc k TABLE_NAME id = inr run_info ->
    refresh_id run_info = id.

End Notebook.

(** The two errors the waiting reports. *)
Definition error_creating_monitor : PyException :=
  AssertionError (Some "Error creating monitor").

Definition monitor_refresh_failed : PyException :=
  AssertionError (Some "Monitor refresh failed").

(** What the [assert] after the refresh loop makes of the value it ends with. *)
Definition refresh_result (run_info : MonitorRefreshInfo)
    : Outcome MonitorRefreshInfo :=
  if state_eqb (state run_info) SUCCESS then Returned run_info
  else Raised monitor_refresh_failed.

(** ** Shapes of a run *)

(** A trace with [n] fetches of a refresh and [n] sleeps of 30 seconds. *)
Definition refresh_polled (n : nat) (t : list Event) : Prop :=
  count is_get_refresh t = n /\ count is_sleep t = n /\
  slept t = (30 * Z.of_nat n)%Z.

(** A computation with a loop bound that is still running at every bound. *)
Definition diverges {A} (c : nat -> M A) (g : Globals) : Prop :=
  forall fuel, outcome (c fuel g) = Running.

(** A trace that is a fetch, then a sleep and a fetch any number of times:
    the sleeps lie between consecutive fetches. *)
Fixpoint sleeps_between_fetches (t : list Event) : bool :=
  match t with
  | [] => false
  | [e] => is_get e
  | e :: s :: t' => is_get e && is_sleep s && sleeps_between_fetches t'
  end.

(** The last action of a trace. *)
Definition last_event (t : list Event) : option Event :=
  match rev t with
  | [] => None
  | e :: _ => Some e
  end.

(** Kinds of events: a sleep, if it is one, of [d] seconds; a fetch of a
    refresh through the client [h], or a sleep; a fetch of the refresh [id],
    or a sleep. *)
Definition sleeps_for (d : Z) (ev : Event) : Prop :=
  forall d', ev = EvSleep d' -> d' = d.

Definition polls_through (h : Handle) (ev : Event) : Prop :=
  match ev with
  | EvGetRefresh h' _ _ => h' = h
  | EvSleep _ => True
  | _ => False
  end.

Definition polls_refresh (id : Z) (ev : Event) : Prop :=
  match ev with
  | EvGetRefresh _ _ id' => id' = id
  | EvSleep _ => True
  | _ => False
  end.

(** A computation that sleeps more than any given number of seconds. *)
Definition sleeps_without_bound {A} (c : nat -> M A) (g : Globals) : Prop :=
  forall timeout : Z, exists fuel, (timeout < slept (emitted (c fuel g)))%Z.

(** The interval of a wait could be chosen if every number of seconds were
    slept in some run of it. *)
Definition activation_interval_can_be_chosen : Prop :=
  forall d : Z, exists catalog dbName svc fuel g,
    In (EvSleep d) (emitted (awaitActive catalog dbName svc fuel g)).

Definition refresh_interval_can_be_chosen : Prop :=
  forall d : Z, exists catalog dbName svc fuel run_info g,
    In (EvSleep d) (emitted (awaitRefresh catalog dbName svc fuel run_info g)).

(** One round of a poll loop, [n] times. *)
Definition rounds (n : nat) (round : list Event) : list Event :=
  List.concat (repeat round n).

(** ** The cells in sequence, and the cells that read [lhm_monitor] *)

Definition is_update (e : Event) : bool :=
  match e with EvUpdate _ _ => true | _ => false end.

(** The client through which a call of the service is made. *)
Definition client_of (ev : Event) : option Handle :=
  match ev with
  | EvCreate h _ | EvGet h _ | EvListRefreshes h _ | EvGetRefresh h _ _
  | EvUpdate h _ | EvRunRefresh h _ => Some h
  | EvPrint _ | EvWorkspaceClient _ | EvSleep _ => None
  end.

Definition calls_through (h : Handle) (ev : Event) : Prop :=
  forall h', client_of ev = Some h' -> h' = h.

(** Python's [NameError]: the name read is not bound. *)
Inductive UnboundName : Type :=
| NameError (name : string).

(** Line 162, [profile_table = lhm_monitor.profile_metrics_table_name], and
    line 180, [drift_table = lhm_monitor.drift_metrics_table_name]: the value
    assigned, or the error of reading [lhm_monitor] while it is unbound. *)
Definition profile_table (g : Globals) : UnboundName + string :=
  match lhm_monitor g with
  | Some m => inr (profile_metrics_table_name m)
  | None => inl (NameError "lhm_monitor")
  end.

Definition drift_table (g : Globals) : UnboundName + string :=
  match lhm_monitor g with
  | Some m => inr (drift_metrics_table_name m)
  | None => inl (NameError "lhm_monitor")
  end.

Section Cells.

Variables catalog dbName cwd : string.
Variable svc : Service.

(** Lines 91-144, the code cells from the first [w = WorkspaceClient()] to
    the end of the wait; between them the notebook only imports. *)
Definition first_cells (fuel : nat) : M MonitorRefreshInfo :=
  new_WorkspaceClient ;;
  create_cell catalog dbName cwd svc ;;
  wait_cell catalog dbName svc fuel.

(** Lines 379-415, the update cell and the refresh cell. *)
Definition update_and_refresh (fuel : nat) : M MonitorRefreshInfo :=
  update_cell catalog dbName svc ;;
  refresh_cell catalog dbName svc fuel.

(** The status fetch that follows [n] fetches raises [e]; the fetch of any
    refresh that follows [n] fetches raises [e]. *)
Definition get_raises_at (n : nat) (g : Globals) (e : PyException) : Prop :=
  get_resp svc (n_get g + n) (TABLE_NAME catalog dbName) = inl e.

Definition get_refresh_raises_at (n : nat) (g : Globals) (e : PyException)
    : Prop :=
  forall id,
    get_refresh_resp svc (n_get_refresh g + n) (TABLE_NAME catalog dbName) id =
    inl e.

(** What the refresh loop of lines 140-142 (and 411-413) does, read off the
    service's answers: started with [run_info] after [k] fetches, through
    the client [h], for at most [fuel] rounds.  A round fetches the refresh
    whose [refresh_id] the current [run_info] carries; if the fetch is
    answered, the round sleeps 30 seconds and the answer becomes the
    current [run_info]. *)
Fixpoint refresh_trace (fuel : nat) (h : Handle) (k : nat)
    (run_info : MonitorRefreshInfo) : list Event :=
  if refresh_pending run_info then
    match fuel with
    | O => []
    | S fuel' =>
        EvGetRefresh h (TABLE_NAME catalog dbName) (refresh_id run_info) ::
        match get_refresh_resp svc k (TABLE_NAME catalog dbName)
                (refresh_id run_info) with
        | inl _ => []
        | inr run_info' => EvSleep 30 :: refresh_trace fuel' h (S k) run_info'
        end
    end
  else [].

(** The globals the cells can leave behind: those after line 91,
    [w = WorkspaceClient()], run in any session, and those after any cell
    run from globals that can be left behind, whether the cell returned,
    raised or was interrupted. *)
Inductive reached : Globals -> Prop :=
| reached_line_91 g : reached (final (new_WorkspaceClient g))
| reached_create g :
    reached g -> reached (final (create_cell catalog dbName cwd svc g))
| reached_wait fuel g :
    reached g -> reached (final (wait_cell catalog dbName svc fuel g))
| reached_update g :
    reached g -> reached (final (update_cell catalog dbName svc g))
| reached_refresh fuel g :
    reached g -> reached (final (refresh_cell catalog dbName svc fuel g)).

End Cells.

(** A session in which no client has been constructed yet. *)
Definition g_start : Globals :=
  {| w := 0; lhm_monitor := None; next_handle := 0; n_get := 0;
     n_get_refresh := 0 |}.

(** The monitor is active and lists two refreshes; every fetch of a refresh
    is answered with the second of them, whichever is asked for. *)
Definition svc_other_refresh : Service :=
  {| create_resp := fun _ => inr (info_of MONITOR_STATUS_PENDING);
     get_resp := fun _ _ => inr (info_of MONITOR_STATUS_ACTIVE);
     list_refreshes_resp := fun _ =>
       inr [{| refresh_id := 7%Z; state := PENDING |};
            {| refresh_id := 5%Z; state := RUNNING |}];
     get_refresh_resp := fun k _ _ =>
       inr {| refresh_id := 5%Z; state := script [RUNNING] SUCCESS k |};
     update_resp := fun _ => inr (info_of MONITOR_STATUS_ACTIVE);
     run_refresh_resp := fun _ => inr {| refresh_id := 8%Z; state := PENDING |} |}.

(** Services that raise. *)
Definition unavailable : PyException :=
  DatabricksError "TEMPORARILY_UNAVAILABLE" "The service is temporarily unavailable.".

(** The first fetch of the status and of a refresh is answered (PENDING,
    RUNNING); every later one raises. *)
Definition svc_flaky : Service :=
  {| create_resp := fun _ => inr (info_of MONITOR_STATUS_PENDING);
     get_resp := fun k _ =>
       match k with
       | 0 => inr (info_of MONITOR_STATUS_PENDING)
       | S _ => inl unavailable
       end;
     list_refreshes_resp := fun _ => inr [{| refresh_id := 7%Z; state := PENDING |}];
     get_refresh_resp := fun k _ id =>
       match k with
       | 0 => inr {| refresh_id := id; state := RUNNING |}
       | S _ => inl unavailable
       end;
     update_resp := fun _ => inr (info_of MONITOR_STATUS_ACTIVE);
     run_refresh_resp := fun _ => inr {| refresh_id := 8%Z; state := PENDING |} |}.

(** The monitor is active; listing its refreshes raises. *)
Definition svc_no_listing : Service :=
  {| create_resp := fun _ => inr (info_of MONITOR_STATUS_PENDING);
     get_resp := fun _ _ => inr (info_of MONITOR_STATUS_ACTIVE);
     list_refreshes_resp := fun _ => inl unavailable;
     get_refresh_resp := fun _ _ id => inr {| refresh_id := id; state := SUCCESS |};
     update_resp := fun _ => inr (info_of MONITOR_STATUS_ACTIVE);
     run_refresh_resp := fun _ => inl unavailable |}.

(** A status fetch through [h] or a sleep of 10 seconds; a fetch of a refresh
    through [h] or a sleep of 30 seconds. *)
Definition status_phase (h : Handle) (T : string) (ev : Event) : Prop :=
  ev = EvGet h T \/ ev = EvSleep 10.

Definition refresh_phase (h : Handle) (T : string) (ev : Event) : Prop :=
  (exists id, ev = EvGetRefresh h T id) \/ ev = EvSleep 30.

(** A trace made of rounds of a poll loop, in their order: each round is an
    event that [fetch] holds of followed by a sleep of [d] seconds, except
    that the last round may be the fetch alone.  So every sleep comes
    directly after a fetch, and the trace does not start with a sleep. *)
Inductive fetch_sleep_rounds (fetch : Event -> bool) (d : Z)
    : list Event -> Prop :=
| rounds_done : fetch_sleep_rounds fetch d []
| rounds_last f : fetch f = true -> fetch_sleep_rounds fetch d [f]
| rounds_more f t :
    fetch f = true ->
    fetch_sleep_rounds fetch d t ->
    fetch_sleep_rounds fetch d (f :: EvSleep d :: t).

(** * Properties *)

(** ** The monad and the loop *)

Lemma bind_returned {A B} (c : M A) (k : A -> M B) g a :
  outcome (c g) = Returned a ->
  bind c k g =
  {| outcome := outcome (k a (final (c g)));
     final := final (k a (final (c g)));
     emitted := emitted (c g) ++ emitted (k a (final (c g))) |}.
Proof. intros H. unfold bind. rewrite H. reflexivity. Qed.

Lemma bind_running {A B} (c : M A) (k : A -> M B) g :
  outcome (c g) = Running ->
  bind c k g =
  {| outcome := Running; final := final (c g); emitted := emitted (c g) |}.
Proof. intros H. unfold bind. rewrite H. reflexivity. Qed.

Lemma bind_run {A B} (c : M A) (k : A -> M B) g a g' t :
  c g = {| outcome := Returned a; final := g'; emitted := t |} ->
  bind c k g =
  {| outcome := outcome (k a g'); final := final (k a g');
     emitted := t ++ emitted (k a g') |}.
Proof. intros H. unfold bind. rewrite H. reflexivity. Qed.

(** What a sequence emits starts with what its first part emits. *)
Lemma bind_emitted {A B} (c : M A) (k : A -> M B) g :
  emitted (bind c k g) =
  emitted (c g) ++
  match outcome (c g) with
  | Returned a => emitted (k a (final (c g)))
  | _ => []
  end.
Proof.
  unfold bind. destruct (outcome (c g)); simpl; auto using app_nil_r.
Qed.

Lemma while_exit {A} fuel (cond : A -> bool) body a :
  cond a = false -> while_ fuel cond body a = ret a.
Proof. intros H. destruct fuel; simpl; rewrite H; reflexivity. Qed.

Lemma while_iterate {A} fuel (cond : A -> bool) body a :
  cond a = true ->
  while_ (S fuel) cond body a = bind (body a) (while_ fuel cond body).
Proof. intros H. simpl. rewrite H. reflexivity. Qed.

Lemma while_out_of_fuel {A} (cond : A -> bool) body a g :
  cond a = true ->
  while_ 0 cond body a g = {| outcome := Running; final := g; emitted := [] |}.
Proof. intros H. simpl. rewrite H. reflexivity. Qed.

(** A property of the loop variable and the globals that every round keeps
    holds of every round; if every round emits only events in [P], so does
    the loop, whatever its bound and however it ends. *)
Lemma while_emits {A} (P : Event -> Prop) (Inv : A -> Globals -> Prop)
    (cond : A -> bool) (body : A -> M A) :
  (forall a g, Inv a g -> Forall P (emitted (body a g))) ->
  (forall a g a', Inv a g -> outcome (body a g) = Returned a' ->
                  Inv a' (final (body a g))) ->
  forall fuel a g, Inv a g -> Forall P (emitted (while_ fuel cond body a g)).
Proof.
  intros Hemit Hkeep fuel.
  induction fuel as [|fuel IH]; intros a g HI; simpl;
    destruct (cond a); simpl; try constructor.
  rewrite bind_emitted. apply Forall_app. split; [auto|].
  destruct (outcome (body a g)) eqn:E; try constructor.
  apply IH. eauto.
Qed.

(** A property of the globals that every round keeps holds when the loop
    stops, however it stops. *)
Lemma while_final {A} (Q : Globals -> Prop) (cond : A -> bool) (body : A -> M A) :
  (forall a g, Q g -> Q (final (body a g))) ->
  forall fuel a g, Q g -> Q (final (while_ fuel cond body a g)).
Proof.
  intros Hkeep fuel.
  induction fuel as [|fuel IH]; intros a g HQ; simpl;
    destruct (cond a); simpl; try assumption.
  unfold bind. specialize (Hkeep a g HQ).
  destruct (outcome (body a g)) eqn:E; cbn [final]; auto.
Qed.

Lemma bind_returned_inv {A B} (c : M A) (k : A -> M B) g b :
  outcome (bind c k g) = Returned b ->
  exists a, outcome (c g) = Returned a /\ outcome (k a (final (c g))) = Returned b.
Proof.
  unfold bind. destruct (outcome (c g)) as [a|e|] eqn:E; cbn [outcome];
    try discriminate.
  intros H. exists a. auto.
Qed.

Lemma bind_final {A B} (Q : Globals -> Prop) (c : M A) (k : A -> M B) g :
  Q (final (c g)) -> (forall a g', Q g' -> Q (final (k a g'))) ->
  Q (final (bind c k g)).
Proof.
  intros Hc Hk. unfold bind. destruct (outcome (c g)); cbn [final]; auto.
Qed.

Lemma bind_emits {A B} (P : Event -> Prop) (c : M A) (k : A -> M B) g :
  Forall P (emitted (c g)) ->
  (forall a, outcome (c g) = Returned a -> Forall P (emitted (k a (final (c g))))) ->
  Forall P (emitted (bind c k g)).
Proof.
  intros Hc Hk. rewrite bind_emitted. apply Forall_app. split; [exact Hc|].
  destruct (outcome (c g)); auto.
Qed.

Lemma answer_emitted {A} ev g (r : PyException + A) : emitted (answer ev g r) = [ev].
Proof. destruct r; reflexivity. Qed.

Lemma assert_emitted test msg g : emitted (assert_ test msg g) = [].
Proof. destruct test; reflexivity. Qed.

Lemma assert_final test msg g : final (assert_ test msg g) = g.
Proof. destruct test; reflexivity. Qed.

Lemma assert_returned test msg g u :
  outcome (assert_ test msg g) = Returned u -> test = true.
Proof. destruct test; cbn; congruence. Qed.

(** ** Counting in traces *)

Lemma count_app p t u : count p (t ++ u) = count p t + count p u.
Proof. unfold count. rewrite filter_app, length_app. reflexivity. Qed.

Lemma slept_app t u : slept (t ++ u) = (slept t + slept u)%Z.
Proof.
  induction t as [|e t IH]; simpl; [reflexivity|].
  destruct e; rewrite ?IH; lia.
Qed.

Lemma count_rounds p n round :
  count p (rounds n round) = n * count p round.
Proof.
  unfold rounds. induction n as [|n IH]; simpl; [reflexivity|].
  rewrite count_app, IH. reflexivity.
Qed.

Lemma slept_rounds n round :
  slept (rounds n round) = (Z.of_nat n * slept round)%Z.
Proof.
  unfold rounds. induction n as [|n IH]; [reflexivity|].
  cbn [repeat List.concat]. rewrite slept_app, IH. lia.
Qed.

Lemma rounds_succ n round : rounds (S n) round = round ++ rounds n round.
Proof. reflexivity. Qed.

Lemma rounds_snoc n round : rounds (S n) round = rounds n round ++ round.
Proof.
  induction n as [|n IH]; [cbn; rewrite app_nil_r; reflexivity|].
  rewrite (rounds_succ (S n)), IH at 1. rewrite app_assoc. reflexivity.
Qed.

Lemma last_event_snoc t e : last_event (t ++ [e]) = Some e.
Proof. unfold last_event. rewrite rev_app_distr. reflexivity. Qed.

Lemma status_eqb_eq a b : status_eqb a b = true <-> a = b.
Proof. destruct a, b; simpl; split; congruence. Qed.

Section NotebookProperties.

Variables catalog dbName cwd : string.
Variable svc : Service.

Local Abbreviation T := (TABLE_NAME catalog dbName).
Local Abbreviation get_status := (get_status catalog dbName svc).
Local Abbreviation get_refresh_state := (get_refresh_state catalog dbName svc).
Local Abbreviation poll_monitor := (poll_monitor catalog dbName svc).
Local Abbreviation poll_refresh := (poll_refresh catalog dbName svc).
Local Abbreviation awaitActive := (awaitActive catalog dbName svc).
Local Abbreviation awaitRefresh := (awaitRefresh catalog dbName svc).
Local Abbreviation monitor_round := (monitor_round catalog dbName).
Local Abbreviation refresh_round := (refresh_round catalog dbName).
Local Abbreviation monitor_pending_for := (monitor_pending_for catalog dbName svc).
Local Abbreviation refresh_pending_for := (refresh_pending_for catalog dbName svc).
Local Abbreviation refresh_settles_at := (refresh_settles_at catalog dbName svc).

(** ** The status loop *)

Lemma poll_monitor_run a g info :
  get_resp svc (n_get g) T = inr info ->
  poll_monitor a g =
  {| outcome := Returned info; final := bump_get g; emitted := monitor_round g |}.
Proof.
  intros H. unfold poll_monitor, bind, quality_monitors_get.
  rewrite H. reflexivity.
Qed.

Lemma get_status_inv k s :
  get_status k = Some s ->
  exists info, get_resp svc k T = inr info /\ status info = s.
Proof.
  unfold get_status. destruct (get_resp svc k T) as [e|info]; [discriminate|].
  intros [= <-]. eauto.
Qed.

(** While the service answers PENDING, every round is run. *)
Lemma monitor_loop_pending fuel : forall a g,
  monitor_pending a = true ->
  monitor_pending_for fuel g ->
  while_ fuel monitor_pending poll_monitor a g =
  {| outcome := Running; final := Nat.iter fuel bump_get g;
     emitted := rounds fuel (monitor_round g) |}.
Proof.
  induction fuel as [|fuel IH]; intros a g Ha Hp.
  - apply while_out_of_fuel, Ha.
  - rewrite while_iterate by assumption.
    destruct (get_status_inv (n_get g) MONITOR_STATUS_PENDING) as (i & Hi & Hs).
    { rewrite <- (Nat.add_0_r (n_get g)). apply Hp. lia. }
    rewrite (bind_returned _ _ g i); rewrite (poll_monitor_run a g i Hi); [|reflexivity].
    cbn [outcome final emitted].
    rewrite IH.
    + cbn [outcome final emitted]. rewrite rounds_succ, <- Nat.iter_succ_r.
      reflexivity.
    + unfold monitor_pending. rewrite Hs. reflexivity.
    + intros k Hk. cbn [bump_get n_get]. replace (S (n_get g) + k) with (n_get g + S k) by lia.
      apply Hp. lia.
Qed.

(** [n] answers PENDING and then an answer that is not: the loop runs [n + 1]
    rounds and ends with that answer. *)
Lemma monitor_loop_exit n : forall fuel a g info,
  n < fuel ->
  monitor_pending a = true ->
  monitor_pending_for n g ->
  get_resp svc (n_get g + n) T = inr info ->
  monitor_pending info = false ->
  while_ fuel monitor_pending poll_monitor a g =
  {| outcome := Returned info; final := Nat.iter (S n) bump_get g;
     emitted := rounds (S n) (monitor_round g) |}.
Proof.
  induction n as [|n IH]; intros fuel a g info Hf Ha Hp Hi Hd;
    (destruct fuel as [|fuel]; [lia|]); rewrite while_iterate by assumption.
  - rewrite Nat.add_0_r in Hi.
    rewrite (bind_returned _ _ g info); rewrite (poll_monitor_run a g info Hi); [|reflexivity].
    cbn [outcome final emitted]. rewrite while_exit by assumption.
    unfold rounds. simpl. reflexivity.
  - destruct (get_status_inv (n_get g) MONITOR_STATUS_PENDING) as (i & Hg & Hs).
    { rewrite <- (Nat.add_0_r (n_get g)). apply Hp. lia. }
    rewrite (bind_returned _ _ g i); rewrite (poll_monitor_run a g i Hg); [|reflexivity].
    cbn [outcome final emitted].
    rewrite (IH fuel i (bump_get g) info).
    + cbn [outcome final emitted]. rewrite (rounds_succ (S n)), <- Nat.iter_succ_r.
      reflexivity.
    + lia.
    + unfold monitor_pending. rewrite Hs. reflexivity.
    + intros k Hk. cbn [bump_get n_get]. replace (S (n_get g) + k) with (n_get g + S k) by lia.
      apply Hp. lia.
    + cbn [bump_get n_get]. replace (S (n_get g) + n) with (n_get g + S n) by lia. exact Hi.
    + exact Hd.
Qed.

Lemma monitor_pending_for_next n g :
  monitor_pending_for (S n) g -> monitor_pending_for n (bump_get g).
Proof.
  intros Hp k Hk. cbn [bump_get n_get].
  replace (S (n_get g) + k) with (n_get g + S k) by lia. apply Hp. lia.
Qed.

Lemma monitor_pending_for_first n g :
  monitor_pending_for (S n) g ->
  exists info, get_resp svc (n_get g) T = inr info /\ monitor_pending info = true.
Proof.
  intros Hp.
  destruct (get_status_inv (n_get g) MONITOR_STATUS_PENDING) as (i & Hi & Hs).
  { rewrite <- (Nat.add_0_r (n_get g)). apply Hp. lia. }
  exists i. split; [exact Hi|]. unfold monitor_pending. rewrite Hs. reflexivity.
Qed.

Lemma quality_monitors_get_run g info :
  get_resp svc (n_get g) T = inr info ->
  quality_monitors_get svc T g =
  {| outcome := Returned info; final := bump_get g; emitted := [EvGet (w g) T] |}.
Proof. intros H. unfold quality_monitors_get. rewrite H. reflexivity. Qed.

Lemma assert_active_run info g :
  (assert_ (status_eqb (status info) MONITOR_STATUS_ACTIVE)
           (Some "Error creating monitor") ;; ret info) g =
  {| outcome :=
       if status_eqb (status info) MONITOR_STATUS_ACTIVE then Returned info
       else Raised error_creating_monitor;
     final := g; emitted := [] |}.
Proof.
  unfold assert_, bind.
  destruct (status_eqb (status info) MONITOR_STATUS_ACTIVE); reflexivity.
Qed.

(** [awaitActive] when [m] fetches are answered PENDING and the next one is
    answered with [info], which is not pending. *)
Lemma awaitActive_exit m fuel g info :
  m <= fuel ->
  monitor_pending_for m g ->
  get_resp svc (n_get g + m) T = inr info ->
  monitor_pending info = false ->
  awaitActive fuel g =
  {| outcome :=
       if status_eqb (status info) MONITOR_STATUS_ACTIVE then Returned info
       else Raised error_creating_monitor;
     final := Nat.iter (S m) bump_get g;
     emitted := EvGet (w g) T :: rounds m (monitor_round g) |}.
Proof.
  intros Hf Hp Hi Hd. unfold awaitActive.
  destruct m as [|m].
  - rewrite Nat.add_0_r in Hi.
    rewrite (bind_run _ _ _ _ _ _ (quality_monitors_get_run g info Hi)).
    rewrite (bind_run _ _ (bump_get g) info (bump_get g) []).
    + rewrite assert_active_run. reflexivity.
    + rewrite while_exit by assumption. reflexivity.
  - destruct (monitor_pending_for_first m g Hp) as (i & Hg & Hpi).
    rewrite (bind_run _ _ _ _ _ _ (quality_monitors_get_run g i Hg)).
    rewrite (bind_run _ _ (bump_get g) info (Nat.iter (S m) bump_get (bump_get g))
               (rounds (S m) (monitor_round g))).
    + rewrite assert_active_run. cbn [outcome final emitted].
      rewrite <- Nat.iter_succ_r, app_nil_r. reflexivity.
    + apply (monitor_loop_exit m fuel i (bump_get g) info); try assumption; try lia.
      * apply monitor_pending_for_next, Hp.
      * cbn [bump_get n_get].
        replace (S (n_get g) + m) with (n_get g + S m) by lia. exact Hi.
Qed.

(** [awaitActive] when every fetch within the bound is answered PENDING. *)
Lemma awaitActive_pending fuel g :
  monitor_pending_for (S fuel) g ->
  awaitActive fuel g =
  {| outcome := Running; final := Nat.iter (S fuel) bump_get g;
     emitted := EvGet (w g) T :: rounds fuel (monitor_round g) |}.
Proof.
  intros Hp. unfold awaitActive.
  destruct (monitor_pending_for_first fuel g Hp) as (i & Hg & Hpi).
  rewrite (bind_run _ _ _ _ _ _ (quality_monitors_get_run g i Hg)).
  pose proof (monitor_loop_pending fuel i (bump_get g) Hpi
                (monitor_pending_for_next _ _ Hp)) as Hl.
  unfold bind. rewrite Hl. cbn [outcome final emitted].
  rewrite <- Nat.iter_succ_r. reflexivity.
Qed.

Lemma count_get_monitor_trace m g :
  count is_get (EvGet (w g) T :: rounds m (monitor_round g)) = S m.
Proof.
  change (EvGet (w g) T :: rounds m (monitor_round g))
    with ([EvGet (w g) T] ++ rounds m (monitor_round g)).
  rewrite count_app, count_rounds. cbn. lia.
Qed.

Lemma count_sleep_monitor_trace m g :
  count is_sleep (EvGet (w g) T :: rounds m (monitor_round g)) = m.
Proof.
  change (EvGet (w g) T :: rounds m (monitor_round g))
    with ([EvGet (w g) T] ++ rounds m (monitor_round g)).
  rewrite count_app, count_rounds. cbn. lia.
Qed.

Lemma slept_monitor_trace m g :
  slept (EvGet (w g) T :: rounds m (monitor_round g)) = (10 * Z.of_nat m)%Z.
Proof.
  cbn [slept]. rewrite slept_rounds. unfold monitor_round.
  cbn [slept]. lia.
Qed.

(** ** The refresh loop *)

Lemma refresh_polled_nil : refresh_polled 0 [].
Proof. repeat split. Qed.

Lemma refresh_polled_round n g id t :
  refresh_polled n t -> refresh_polled (S n) (refresh_round g id ++ t).
Proof.
  intros (Hg & Hs & Ht). unfold refresh_polled.
  rewrite !count_app, slept_app, Hg, Hs, Ht.
  unfold refresh_round. cbn [count filter is_get_refresh is_sleep List.length slept].
  repeat split; lia.
Qed.

Lemma poll_refresh_run a g run_info :
  get_refresh_resp svc (n_get_refresh g) T (refresh_id a) = inr run_info ->
  poll_refresh a g =
  {| outcome := Returned run_info; final := bump_get_refresh g;
     emitted := refresh_round g (refresh_id a) |}.
Proof.
  intros H. unfold poll_refresh, bind, quality_monitors_get_refresh.
  rewrite H. reflexivity.
Qed.

Lemma refresh_pending_for_next n g :
  refresh_pending_for (S n) g -> refresh_pending_for n (bump_get_refresh g).
Proof.
  intros Hp k id Hk. cbn [bump_get_refresh n_get_refresh].
  replace (S (n_get_refresh g) + k) with (n_get_refresh g + S k) by lia.
  apply Hp. lia.
Qed.

Lemma refresh_pending_for_first n g id :
  refresh_pending_for (S n) g ->
  exists run_info,
    get_refresh_resp svc (n_get_refresh g) T id = inr run_info /\
    refresh_pending run_info = true.
Proof.
  intros Hp. rewrite <- (Nat.add_0_r (n_get_refresh g)). apply Hp. lia.
Qed.

Lemma refresh_settles_at_next n g s :
  refresh_settles_at (S n) g s -> refresh_settles_at n (bump_get_refresh g) s.
Proof.
  intros Hs id. cbn [bump_get_refresh n_get_refresh].
  replace (S (n_get_refresh g) + n) with (n_get_refresh g + S n) by lia.
  apply Hs.
Qed.

Lemma get_refresh_state_inv k id s :
  get_refresh_state k id = Some s ->
  exists run_info,
    get_refresh_resp svc k T id = inr run_info /\ state run_info = s.
Proof.
  unfold get_refresh_state.
  destruct (get_refresh_resp svc k T id) as [e|r]; [discriminate|].
  intros [= <-]. eauto.
Qed.

(** While the service answers PENDING or RUNNING, every round is run. *)
Lemma refresh_loop_pending fuel : forall a g,
  refresh_pending a = true ->
  refresh_pending_for fuel g ->
  outcome (while_ fuel refresh_pending poll_refresh a g) = Running /\
  final (while_ fuel refresh_pending poll_refresh a g) =
    Nat.iter fuel bump_get_refresh g /\
  refresh_polled fuel (emitted (while_ fuel refresh_pending poll_refresh a g)).
Proof.
  induction fuel as [|fuel IH]; intros a g Ha Hp.
  - rewrite while_out_of_fuel by assumption.
    split; [reflexivity|split; [reflexivity|apply refresh_polled_nil]].
  - rewrite while_iterate by assumption.
    destruct (refresh_pending_for_first fuel g (refresh_id a) Hp) as (r & Hr & Hpr).
    rewrite (bind_run _ _ _ _ _ _ (poll_refresh_run a g r Hr)).
    cbn [outcome final emitted].
    destruct (IH r (bump_get_refresh g) Hpr (refresh_pending_for_next _ _ Hp))
      as (Ho & Hfin & Hcount).
    rewrite Ho, Hfin, <- Nat.iter_succ_r.
    split; [reflexivity|split; [reflexivity|]].
    apply refresh_polled_round, Hcount.
Qed.

(** [n] answers PENDING or RUNNING and then an answer in another state: the
    loop runs [n + 1] rounds and ends with that answer. *)
Lemma refresh_loop_exit n : forall fuel a g s,
  n < fuel ->
  refresh_pending a = true ->
  refresh_pending_for n g ->
  refresh_settles_at n g s ->
  state_in s [PENDING; RUNNING] = false ->
  exists run_info,
    state run_info = s /\
    outcome (while_ fuel refresh_pending poll_refresh a g) = Returned run_info /\
    final (while_ fuel refresh_pending poll_refresh a g) =
      Nat.iter (S n) bump_get_refresh g /\
    refresh_polled (S n) (emitted (while_ fuel refresh_pending poll_refresh a g)).
Proof.
  induction n as [|n IH]; intros fuel a g s Hf Ha Hp Hs Hd;
    (destruct fuel as [|fuel]; [lia|]); rewrite while_iterate by assumption.
  - destruct (get_refresh_state_inv _ _ _ (Hs (refresh_id a))) as (r & Hr & Hsr).
    rewrite Nat.add_0_r in Hr.
    rewrite (bind_run _ _ _ _ _ _ (poll_refresh_run a g r Hr)).
    rewrite while_exit by (unfold refresh_pending; rewrite Hsr; exact Hd).
    exists r. cbn [outcome final emitted ret].
    split; [exact Hsr|split; [reflexivity|split; [reflexivity|]]].
    apply refresh_polled_round, refresh_polled_nil.
  - destruct (refresh_pending_for_first n g (refresh_id a) Hp) as (r & Hr & Hpr).
    rewrite (bind_run _ _ _ _ _ _ (poll_refresh_run a g r Hr)).
    cbn [outcome final emitted].
    destruct (IH fuel r (bump_get_refresh g) s) as (rf & Hsf & Ho & Hfin & Hcount);
      try assumption; try lia.
    + apply refresh_pending_for_next, Hp.
    + apply refresh_settles_at_next, Hs.
    + exists rf. rewrite Ho, Hfin, <- Nat.iter_succ_r.
      split; [exact Hsf|split; [reflexivity|split; [reflexivity|]]].
      apply refresh_polled_round, Hcount.
Qed.

Lemma assert_success_run run_info g :
  (assert_ (state_eqb (state run_info) SUCCESS) (Some "Monitor refresh failed") ;;
   ret run_info) g =
  {| outcome := refresh_result run_info; final := g; emitted := [] |}.
Proof.
  unfold assert_, bind, refresh_result.
  destruct (state_eqb (state run_info) SUCCESS); reflexivity.
Qed.

(** [awaitRefresh] of a refresh that is neither PENDING nor RUNNING: no fetch. *)
Lemma awaitRefresh_settled fuel a g :
  refresh_pending a = false ->
  awaitRefresh fuel a g =
  {| outcome := refresh_result a; final := g; emitted := [] |}.
Proof.
  intros Ha. unfold awaitRefresh.
  rewrite (bind_run _ _ g a g []) by (rewrite while_exit by assumption; reflexivity).
  rewrite assert_success_run. reflexivity.
Qed.

Lemma awaitRefresh_exit n fuel a g s :
  n < fuel ->
  refresh_pending a = true ->
  refresh_pending_for n g ->
  refresh_settles_at n g s ->
  state_in s [PENDING; RUNNING] = false ->
  exists run_info,
    state run_info = s /\
    outcome (awaitRefresh fuel a g) = refresh_result run_info /\
    final (awaitRefresh fuel a g) = Nat.iter (S n) bump_get_refresh g /\
    refresh_polled (S n) (emitted (awaitRefresh fuel a g)).
Proof.
  intros Hf Ha Hp Hs Hd.
  destruct (refresh_loop_exit n fuel a g s Hf Ha Hp Hs Hd) as (r & Hsr & Ho & Hfin & Hc).
  exists r. split; [exact Hsr|]. unfold awaitRefresh.
  rewrite (bind_returned _ _ g r Ho), assert_success_run.
  cbn [outcome final emitted]. rewrite app_nil_r. auto.
Qed.

Lemma awaitRefresh_pending fuel a g :
  refresh_pending a = true ->
  refresh_pending_for fuel g ->
  outcome (awaitRefresh fuel a g) = Running /\
  refresh_polled fuel (emitted (awaitRefresh fuel a g)).
Proof.
  intros Ha Hp.
  destruct (refresh_loop_pending fuel a g Ha Hp) as (Ho & _ & Hc).
  unfold awaitRefresh. rewrite (bind_running _ _ g Ho). auto.
Qed.

Lemma last_event_monitor_trace m g :
  last_event (EvGet (w g) T :: rounds (S m) (monitor_round g)) = Some (EvSleep 10).
Proof.
  rewrite rounds_snoc. unfold monitor_round.
  change [EvGet (w g) T; EvSleep 10] with ([EvGet (w g) T] ++ [EvSleep 10]) at 2.
  rewrite app_assoc, app_comm_cons. apply last_event_snoc.
Qed.

(** ** The claims about waiting *)


(** C2, as amended.  For every N >= 1, if the first N - 1 status fetches are
    answered PENDING and the N-th ACTIVE, [awaitActive] returns the N-th
    answer after exactly N fetches and N - 1 sleeps of 10 seconds.  The
    trace is the first fetch followed by N - 1 rounds of a fetch and then a
    sleep: each sleep follows a fetch of the loop body, so no sleep lies
    between the first fetch and the second, and for N >= 2 the last action
    is a sleep. *)
Theorem awaitActive_fetches_and_sleeps N fuel g :
  1 <= N ->
  N - 1 <= fuel ->
  monitor_pending_for (N - 1) g ->
  get_status (n_get g + (N - 1)) = Some MONITOR_STATUS_ACTIVE ->
  (exists info,
     outcome (awaitActive fuel g) = Returned info /\
     status info = MONITOR_STATUS_ACTIVE) /\
  emitted (awaitActive fuel g) =
    EvGet (w g) T :: rounds (N - 1) [EvGet (w g) T; EvSleep 10] /\
  count is_get (emitted (awaitActive fuel g)) = N /\
  count is_sleep (emitted (awaitActive fuel g)) = N - 1 /\
  slept (emitted (awaitActive fuel g)) = (10 * Z.of_nat (N - 1))%Z.
Proof.
  intros HN Hf Hp Ha.
  destruct (get_status_inv _ _ Ha) as (info & Hi & Hs).
  assert (Hd : monitor_pending info = false)
    by (unfold monitor_pending; rewrite Hs; reflexivity).
  rewrite (awaitActive_exit (N - 1) fuel g info Hf Hp Hi Hd).
  cbn [outcome emitted]. rewrite Hs. cbn [status_eqb].
  split; [exists info; auto|].
  split; [reflexivity|].
  rewrite count_get_monitor_trace, count_sleep_monitor_trace, slept_monitor_trace.
  repeat split. lia.
Qed.

(** C3, as amended.  For every N >= 1, if the first N - 1 status fetches are
    answered PENDING and the N-th FAILED, [awaitActive] makes exactly N
    fetches, none after the one that observes FAILED, and raises an
    [AssertionError] with the message "Error creating monitor".  When FAILED
    is observed in the loop (N >= 2), the loop body's sleep of 10 seconds
    comes after the observation and before the error. *)
Theorem awaitActive_failed N fuel g :
  1 <= N ->
  N - 1 <= fuel ->
  monitor_pending_for (N - 1) g ->
  get_status (n_get g + (N - 1)) = Some MONITOR_STATUS_FAILED ->
  outcome (awaitActive fuel g) =
    Raised (AssertionError (Some "Error creating monitor")) /\
  emitted (awaitActive fuel g) =
    EvGet (w g) T :: rounds (N - 1) [EvGet (w g) T; EvSleep 10] /\
  count is_get (emitted (awaitActive fuel g)) = N /\
  last_event (emitted (awaitActive fuel g)) =
    Some (if Nat.eqb N 1 then EvGet (w g) T else EvSleep 10).
Proof.
  intros HN Hf Hp Ha.
  destruct (get_status_inv _ _ Ha) as (info & Hi & Hs).
  assert (Hd : monitor_pending info = false)
    by (unfold monitor_pending; rewrite Hs; reflexivity).
  rewrite (awaitActive_exit (N - 1) fuel g info Hf Hp Hi Hd).
  cbn [outcome emitted]. rewrite Hs. cbn [status_eqb].
  split; [reflexivity|]. split; [reflexivity|].
  rewrite count_get_monitor_trace. split; [lia|].
  destruct N as [|[|N]]; [lia|reflexivity|].
  replace (S (S N) - 1) with (S N) by lia.
  rewrite last_event_monitor_trace. reflexivity.
Qed.


(** ** What the waits do whatever the service answers *)

Local Abbreviation await_initial_refresh := (await_initial_refresh catalog dbName svc).
Local Abbreviation wait_cell := (wait_cell catalog dbName svc).
Local Abbreviation refresh_cell := (refresh_cell catalog dbName svc).
Local Abbreviation create_cell := (create_cell catalog dbName cwd svc).
Local Abbreviation update_cell := (update_cell catalog dbName svc).
Local Abbreviation create_request := (create_request catalog dbName cwd).
Local Abbreviation update_request := (update_request catalog dbName).

Lemma poll_monitor_emits (P : Event -> Prop) a g :
  P (EvGet (w g) T) -> P (EvSleep 10) -> Forall P (emitted (poll_monitor a g)).
Proof.
  intros Hg Hs. unfold poll_monitor.
  apply bind_emits.
  - unfold quality_monitors_get. rewrite answer_emitted. auto.
  - intros info _. apply bind_emits; [repeat constructor; exact Hs|].
    intros. constructor.
Qed.

Lemma awaitActive_emits (P : Event -> Prop) fuel g :
  (forall h, P (EvGet h T)) -> P (EvSleep 10) ->
  Forall P (emitted (awaitActive fuel g)).
Proof.
  intros Hg Hs. unfold awaitActive.
  apply bind_emits.
  - unfold quality_monitors_get. rewrite answer_emitted. auto.
  - intros info _. apply bind_emits.
    + apply (while_emits P (fun _ _ => True)); auto.
      intros. apply poll_monitor_emits; auto.
    + intros info' _. apply bind_emits; [rewrite assert_emitted|intros]; constructor.
Qed.

Lemma awaitActive_first_fetch fuel g :
  exists t, emitted (awaitActive fuel g) = EvGet (w g) T :: t.
Proof.
  unfold awaitActive. rewrite bind_emitted.
  unfold quality_monitors_get at 1. rewrite answer_emitted. cbn [app]. eauto.
Qed.

(** [awaitActive] returns only a monitor that is ACTIVE. *)
Lemma awaitActive_returned fuel g info :
  outcome (awaitActive fuel g) = Returned info ->
  status info = MONITOR_STATUS_ACTIVE.
Proof.
  unfold awaitActive. intros H.
  apply bind_returned_inv in H. destruct H as (i0 & _ & H).
  apply bind_returned_inv in H. destruct H as (i1 & _ & H).
  apply bind_returned_inv in H. destruct H as (u & Ha & H).
  apply assert_returned in Ha. cbn in H. injection H as <-.
  apply status_eqb_eq, Ha.
Qed.

Lemma poll_refresh_emits (P : Event -> Prop) a g :
  P (EvGetRefresh (w g) T (refresh_id a)) -> P (EvSleep 30) ->
  Forall P (emitted (poll_refresh a g)).
Proof.
  intros Hg Hs. unfold poll_refresh.
  apply bind_emits.
  - unfold quality_monitors_get_refresh. rewrite answer_emitted. auto.
  - intros r _. apply bind_emits; [repeat constructor; exact Hs|].
    intros. constructor.
Qed.

Lemma poll_refresh_final a g : final (poll_refresh a g) = bump_get_refresh g.
Proof.
  unfold poll_refresh, bind, quality_monitors_get_refresh.
  destruct (get_refresh_resp svc (n_get_refresh g) T (refresh_id a)); reflexivity.
Qed.

Lemma poll_refresh_returned a g a' :
  outcome (poll_refresh a g) = Returned a' ->
  get_refresh_resp svc (n_get_refresh g) T (refresh_id a) = inr a'.
Proof.
  unfold poll_refresh, bind, quality_monitors_get_refresh.
  destruct (get_refresh_resp svc (n_get_refresh g) T (refresh_id a));
    cbn; congruence.
Qed.

Lemma awaitRefresh_emits (P : Event -> Prop)
    (Inv : MonitorRefreshInfo -> Globals -> Prop) :
  (forall a g, Inv a g -> P (EvGetRefresh (w g) T (refresh_id a))) ->
  P (EvSleep 30) ->
  (forall a g a', Inv a g ->
     get_refresh_resp svc (n_get_refresh g) T (refresh_id a) = inr a' ->
     Inv a' (bump_get_refresh g)) ->
  forall fuel a g, Inv a g -> Forall P (emitted (awaitRefresh fuel a g)).
Proof.
  intros Hg Hs Hkeep fuel a g HI. unfold awaitRefresh.
  apply bind_emits.
  - apply (while_emits P Inv); auto.
    + intros. apply poll_refresh_emits; auto.
    + intros a0 g0' a' HI0 Ho. rewrite poll_refresh_final.
      apply (Hkeep a0); auto using poll_refresh_returned.
  - intros r _. apply bind_emits; [rewrite assert_emitted|intros]; constructor.
Qed.

(** ** The claims about the cells *)

(** C4, as amended.  When [create] raises, the exception is caught: the cell
    prints it and ends normally, having called [create] once and left
    [lhm_monitor] as it was, and the next cell goes on to fetch the
    monitor's status.  When [update] raises, the same holds of the update
    cell: one call, the exception printed, [lhm_monitor] and the other
    globals as they were, and the next cell goes on to request a refresh. *)
Theorem create_or_update_error_is_printed g e fuel :
  (create_resp svc create_request = inl e ->
   outcome (create_cell g) = Returned tt /\
   emitted (create_cell g) =
     [EvPrint ("Creating monitor for " ++ T)%string;
      EvWorkspaceClient (next_handle g);
      EvCreate (next_handle g) create_request;
      EvPrint (str e)] /\
   lhm_monitor (final (create_cell g)) = lhm_monitor g /\
   exists t,
     emitted ((create_cell ;; wait_cell fuel) g) =
     emitted (create_cell g) ++ EvGet (next_handle g) T :: t) /\
  (update_resp svc update_request = inl e ->
   outcome (update_cell g) = Returned tt /\
   emitted (update_cell g) = [EvUpdate (w g) update_request; EvPrint (str e)] /\
   final (update_cell g) = g /\
   exists t,
     emitted ((update_cell ;; refresh_cell fuel) g) =
     emitted (update_cell g) ++ EvRunRefresh (w g) T :: t).
Proof.
  split; intros He.
  - assert (Hrun : create_cell g =
      {| outcome := Returned tt;
         final := {| w := next_handle g; lhm_monitor := lhm_monitor g;
                     next_handle := S (next_handle g); n_get := n_get g;
                     n_get_refresh := n_get_refresh g |};
         emitted := [EvPrint ("Creating monitor for " ++ T)%string;
                     EvWorkspaceClient (next_handle g);
                     EvCreate (next_handle g) create_request;
                     EvPrint (str e)] |}).
    { unfold create_cell, bind, try_except, quality_monitors_create.
      cbn. rewrite He. reflexivity. }
    rewrite (bind_run _ _ _ _ _ _ Hrun). rewrite Hrun. cbn [outcome final emitted].
    repeat split.
    unfold wait_cell. rewrite bind_emitted.
    destruct (awaitActive_first_fetch fuel
                {| w := next_handle g; lhm_monitor := lhm_monitor g;
                   next_handle := S (next_handle g); n_get := n_get g;
                   n_get_refresh := n_get_refresh g |}) as (t & Ht).
    rewrite Ht. cbn [w app]. eauto.
  - assert (Hrun : update_cell g =
      {| outcome := Returned tt; final := g;
         emitted := [EvUpdate (w g) update_request; EvPrint (str e)] |}).
    { unfold update_cell, bind, try_except, quality_monitors_update.
      cbn. rewrite He. reflexivity. }
    rewrite (bind_run _ _ _ _ _ _ Hrun). rewrite Hrun. cbn [outcome final emitted].
    repeat split.
    unfold refresh_cell. rewrite bind_emitted.
    unfold quality_monitors_run_refresh at 1. rewrite answer_emitted.
    cbn [app]. eauto.
Qed.


Lemma refresh_loop_trace fuel : forall a g,
  emitted (while_ fuel refresh_pending poll_refresh a g) =
  refresh_trace catalog dbName svc fuel (w g) (n_get_refresh g) a.
Proof.
  induction fuel as [|fuel IH]; intros a g.
  - simpl. destruct (refresh_pending a); reflexivity.
  - destruct (refresh_pending a) eqn:E.
    + rewrite while_iterate by exact E.
      cbn [refresh_trace]. rewrite E.
      destruct (get_refresh_resp svc (n_get_refresh g) T (refresh_id a))
        as [e|r] eqn:R.
      * unfold poll_refresh, bind, quality_monitors_get_refresh.
        rewrite R. reflexivity.
      * rewrite (bind_run _ _ _ _ _ _ (poll_refresh_run a g r R)).
        cbn [emitted]. rewrite IH. reflexivity.
    + rewrite while_exit by exact E.
      cbn [refresh_trace]. rewrite E. reflexivity.
Qed.

(** What [awaitRefresh] emits is what its loop emits. *)
Lemma awaitRefresh_trace fuel a g :
  emitted (awaitRefresh fuel a g) =
  refresh_trace catalog dbName svc fuel (w g) (n_get_refresh g) a.
Proof.
  unfold awaitRefresh. rewrite bind_emitted, refresh_loop_trace.
  destruct (outcome _); rewrite ?app_nil_r; try reflexivity.
  rewrite bind_emitted, assert_emitted.
  destruct (outcome _); rewrite ?app_nil_r; reflexivity.
Qed.

(** C9, as amended.  The wait for the initial refresh is reached only when
    [awaitActive] has returned, that is with an ACTIVE monitor; otherwise
    the cell stops with what [awaitActive] did.  It lists the monitor's
    refreshes; if the list is empty, an [AssertionError] is raised and no
    refresh is fetched.  If it is not empty, only its first element is
    read, and what follows the listing is the refresh loop started with
    that element: nothing is fetched if the first refresh is neither
    PENDING nor RUNNING; otherwise the first fetch asks for the first
    refresh, and every later fetch asks for the [refresh_id] that the
    answer before it carries (line 141).  So every fetch is of the first
    refresh as long as the service answers a fetch with the refresh asked
    for. *)
Theorem only_the_first_refresh_is_polled fuel g :
  (forall info, outcome (awaitActive fuel g) = Returned info ->
     status info = MONITOR_STATUS_ACTIVE /\
     emitted (wait_cell fuel g) =
       emitted (awaitActive fuel g) ++
       emitted (await_initial_refresh fuel (final (awaitActive fuel g)))) /\
  ((forall info, outcome (awaitActive fuel g) <> Returned info) ->
     emitted (wait_cell fuel g) = emitted (awaitActive fuel g)) /\
  (list_refreshes_resp svc T = inr [] ->
     outcome (await_initial_refresh fuel g) = Raised (AssertionError None) /\
     emitted (await_initial_refresh fuel g) = [EvListRefreshes (w g) T]) /\
  (forall first rest,
     list_refreshes_resp svc T = inr (first :: rest) ->
     emitted (await_initial_refresh fuel g) =
       EvListRefreshes (w g) T ::
       refresh_trace catalog dbName svc fuel (w g) (n_get_refresh g) first /\
     (refresh_pending first = false ->
      emitted (await_initial_refresh fuel g) = [EvListRefreshes (w g) T]) /\
     (refresh_pending first = true -> 0 < fuel ->
      exists t,
        emitted (await_initial_refresh fuel g) =
        EvListRefreshes (w g) T :: EvGetRefresh (w g) T (refresh_id first) :: t) /\
     (answers_the_refresh_asked catalog dbName svc ->
      exists t,
        emitted (await_initial_refresh fuel g) = EvListRefreshes (w g) T :: t /\
        Forall (polls_refresh (refresh_id first)) t)).
Proof.
  split; [|split; [|split]].
  - intros info Ho. split; [exact (awaitActive_returned fuel g info Ho)|].
    unfold wait_cell. rewrite bind_emitted, Ho. reflexivity.
  - intros Hn. unfold wait_cell. rewrite bind_emitted.
    destruct (outcome (awaitActive fuel g)) as [info| |] eqn:E;
      [destruct (Hn info eq_refl)| |]; apply app_nil_r.
  - intros Hl. unfold await_initial_refresh, bind,
      quality_monitors_list_refreshes.
    rewrite Hl. cbn. auto.
  - intros first rest Hl.
    assert (Hcell : emitted (await_initial_refresh fuel g) =
                    EvListRefreshes (w g) T :: emitted (awaitRefresh fuel first g)).
    { unfold await_initial_refresh.
      rewrite (bind_run _ _ g (first :: rest) g [EvListRefreshes (w g) T])
        by (unfold quality_monitors_list_refreshes; rewrite Hl; reflexivity).
      rewrite (bind_run _ _ g tt g []) by reflexivity.
      rewrite (bind_run _ _ g first g []) by reflexivity.
      reflexivity. }
    rewrite Hcell. split; [|split; [|split]].
    + rewrite awaitRefresh_trace. reflexivity.
    + intros Hp. rewrite awaitRefresh_trace.
      destruct fuel; cbn [refresh_trace]; rewrite Hp; reflexivity.
    + intros Hp Hf. rewrite awaitRefresh_trace.
      destruct fuel as [|fuel']; [lia|].
      cbn [refresh_trace]. rewrite Hp. eauto.
    + intros Hecho. eexists. split; [reflexivity|].
      apply (awaitRefresh_emits (polls_refresh (refresh_id first))
               (fun a _ => refresh_id a = refresh_id first)).
      * intros a g0' H. cbn. exact H.
      * exact I.
      * intros a g0' a' H Hresp. rewrite (Hecho _ _ _ Hresp). exact H.
      * reflexivity.
Qed.

End NotebookProperties.

(** ** The metric definitions *)

Lemma mem_In x l : mem x l = true <-> In x l.
Proof.
  unfold mem. rewrite existsb_exists. split.
  - intros (y & Hy & He). apply String.eqb_eq in He. subst. exact Hy.
  - intros H. exists x. split; [exact H|apply String.eqb_refl].
Qed.

Lemma mem_not_In x l : mem x l = false <-> ~ In x l.
Proof.
  rewrite <- mem_In. destruct (mem x l); split; congruence.
Qed.

Lemma find_none_iff {A} (f : A -> bool) l :
  find f l = None <-> forall x, In x l -> f x = false.
Proof.
  split; [apply find_none|].
  intros H. destruct (find f l) as [x|] eqn:E; [|reflexivity].
  apply find_some in E. destruct E as (Hin & Hf).
  rewrite (H x Hin) in Hf. discriminate.
Qed.

Section RegistryProperties.

Import Registry.

Variable builtin : string -> bool.

(** A name is known after the definitions [pre] when it is built in or one
    of them has it. *)
Lemma known_iff pre r :
  known builtin (map name pre) r = true <->
  builtin r = true \/
  exists j m', j < List.length pre /\ nth_error pre j = Some m' /\ name m' = r.
Proof.
  unfold known. rewrite orb_true_iff, mem_In, in_map_iff. split.
  - intros [(m' & Hn & Hin)|Hb]; [right|left; exact Hb].
    apply In_nth_error in Hin. destruct Hin as (j & Hj).
    exists j, m'. split; [|auto].
    apply nth_error_Some. congruence.
  - intros [Hb|(j & m' & _ & Hj & Hn)]; [right; exact Hb|left].
    exists m'. split; [exact Hn|]. eapply nth_error_In, Hj.
Qed.

(** A definition with a new name that keeps the template rule passes the
    check exactly when its references are known. *)
Lemma check_none_iff earlier m :
  mem (name m) earlier = false ->
  (derived_or_drift m = true ->
   mem "input_column" (Expr.templates (definition m)) = false) ->
  check builtin earlier m = None <->
  (derived_or_drift m = true ->
   forall r, In r (Expr.names (definition m)) -> known builtin earlier r = true).
Proof.
  intros Hnew Htpl. unfold check. rewrite Hnew.
  destruct (derived_or_drift m); [|split; [discriminate|reflexivity]].
  rewrite (Htpl eq_refl).
  destruct (find _ _) as [r|] eqn:E.
  - split; [discriminate|]. intros H.
    apply find_some in E. destruct E as (Hin & Hr).
    rewrite (H eq_refl r Hin) in Hr. discriminate.
  - split; [|reflexivity]. intros _ _ r Hin.
    apply (proj1 (find_none_iff _ _) E) in Hin.
    apply negb_false_iff in Hin. exact Hin.
Qed.

Lemma validate_from_iff batch : forall pre,
  unique_names (pre ++ batch) ->
  templates_reserved batch ->
  validate_from builtin (map name pre) batch = inr tt <->
  (forall i m r,
     nth_error batch i = Some m ->
     derived_or_drift m = true ->
     In r (Expr.names (definition m)) ->
     builtin r = true \/
     exists j m', j < List.length pre + i /\
                  nth_error (pre ++ batch) j = Some m' /\ name m' = r).
Proof.
  induction batch as [|m rest IH]; intros pre Hu Ht.
  - split; [|reflexivity]. intros _ [|i] m r H; discriminate H.
  - assert (Hnew : mem (name m) (map name pre) = false).
    { apply mem_not_In. unfold unique_names in Hu. rewrite map_app in Hu.
      cbn [map] in Hu. apply NoDup_remove_2 in Hu.
      intros Hin. apply Hu, in_or_app. left. exact Hin. }
    assert (Htm : derived_or_drift m = true ->
                  mem "input_column" (Expr.templates (definition m)) = false).
    { apply Ht. left. reflexivity. }
    assert (Hu' : unique_names ((pre ++ [m]) ++ rest))
      by (rewrite <- app_assoc; exact Hu).
    assert (Ht' : templates_reserved rest)
      by (intros m0 Hin; apply Ht; right; exact Hin).
    specialize (IH (pre ++ [m]) Hu' Ht').
    rewrite map_app in IH. cbn [map] in IH.
    cbn [validate_from].
    pose proof (check_none_iff (map name pre) m Hnew Htm) as Hc.
    split.
    + intros Hv.
      destruct (check builtin (map name pre) m) eqn:E; [discriminate|].
      intros [|i] m0 r Hn Hd Hr.
      * injection Hn as <-.
        apply (proj1 Hc eq_refl Hd), known_iff in Hr.
        destruct Hr as [Hb|(j & m' & Hj & Hnth & Hname)]; [left; exact Hb|right].
        exists j, m'. split; [lia|]. split; [|exact Hname].
        rewrite nth_error_app1 by exact Hj. exact Hnth.
      * destruct (proj1 IH Hv i m0 r Hn Hd Hr) as [Hb|(j & m' & Hj & Hnth & Hname)];
          [left; exact Hb|right].
        exists j, m'. rewrite length_app in Hj. cbn [List.length] in Hj.
        split; [lia|]. split; [|exact Hname].
        rewrite <- app_assoc in Hnth. exact Hnth.
    + intros Hall.
      assert (E : check builtin (map name pre) m = None).
      { apply Hc. intros Hd r Hr. apply known_iff.
        destruct (Hall 0 m r eq_refl Hd Hr) as [Hb|(j & m' & Hj & Hnth & Hname)];
          [left; exact Hb|right].
        exists j, m'. rewrite Nat.add_0_r in Hj.
        rewrite nth_error_app1 in Hnth by exact Hj. auto. }
      rewrite E. apply IH. intros i m0 r Hn Hd Hr.
      destruct (Hall (S i) m0 r Hn Hd Hr) as [Hb|(j & m' & Hj & Hnth & Hname)];
        [left; exact Hb|right].
      exists j, m'. rewrite length_app. cbn [List.length].
      split; [lia|]. split; [|exact Hname].
      rewrite <- app_assoc. exact Hnth.
Qed.

(** C5.  A batch whose names are unique and which keeps the input-column
    template to AGGREGATE definitions is accepted by [validate] if and only
    if every name a DERIVED or DRIFT definition refers to is built in or is
    the name of a definition strictly earlier in the batch.  The AGGREGATE
    metric [variance] followed by the DERIVED metric [std], which refers to
    [variance], is accepted; [std] followed by [variance] is rejected, for
    the reference of [std] to [variance], unless [variance] is built in. *)
Theorem validate_accepts_iff_references_resolved :
  (forall batch,
     unique_names batch ->
     templates_reserved batch ->
     validate builtin batch = inr tt <-> references_resolved builtin batch) /\
  validate builtin [variance_metric_agg; std_metric_derived] = inr tt /\
  (builtin "variance" = false ->
   validate builtin [std_metric_derived; variance_metric_agg] =
   inl (UnknownReference "std" "variance")).
Proof.
  split; [|split].
  - intros batch Hu Ht. unfold validate, references_resolved.
    apply (validate_from_iff batch [] Hu Ht).
  - reflexivity.
  - intros Hb. vm_compute. rewrite Hb. reflexivity.
Qed.

End RegistryProperties.

Ltac earlier_metric :=
  first
    [ exists 0; eexists; split; [lia|]; split; [reflexivity|]; split;
      [reflexivity|]; cbn; tauto
    | exists 1; eexists; split; [lia|]; split; [reflexivity|]; split;
      [reflexivity|]; cbn; tauto
    | exists 3; eexists; split; [lia|]; split; [reflexivity|]; split;
      [reflexivity|]; cbn; tauto
    | exists 4; eexists; split; [lia|]; split; [reflexivity|]; split;
      [reflexivity|]; cbn; tauto ].

(** C6.  In the batch of the update call, every name that the expression of
    a DERIVED or DRIFT definition refers to is the name of an AGGREGATE or
    DERIVED definition strictly earlier in the batch.  Hence, whatever the
    columns of the table are, as long as none is named like a custom metric:
    no such expression names a column of the table, none uses the
    input-column template, and a definition whose expression names a column
    of the table, or uses the input-column template, is AGGREGATE. *)
Theorem custom_metrics_are_layered (columns : list string) :
  (forall m, In m custom_metrics -> ~ In (name m) columns) ->
  (forall i m r,
     nth_error custom_metrics i = Some m ->
     Registry.derived_or_drift m = true ->
     In r (Expr.names (definition m)) ->
     exists j m',
       j < i /\ nth_error custom_metrics j = Some m' /\ name m' = r /\
       (type_ m' = CUSTOM_METRIC_TYPE_AGGREGATE \/
        type_ m' = CUSTOM_METRIC_TYPE_DERIVED)) /\
  (forall m,
     In m custom_metrics ->
     Registry.derived_or_drift m = true ->
     (forall r, In r (Expr.names (definition m)) -> ~ In r columns) /\
     ~ In "input_column" (Expr.templates (definition m))) /\
  (forall m,
     In m custom_metrics ->
     (exists r, In r (Expr.names (definition m)) /\ In r columns) \/
     In "input_column" (Expr.templates (definition m)) ->
     type_ m = CUSTOM_METRIC_TYPE_AGGREGATE).
Proof.
  intros Hcols.
  assert (Hrefs : forall i m r,
     nth_error custom_metrics i = Some m ->
     Registry.derived_or_drift m = true ->
     In r (Expr.names (definition m)) ->
     exists j m',
       j < i /\ nth_error custom_metrics j = Some m' /\ name m' = r /\
       (type_ m' = CUSTOM_METRIC_TYPE_AGGREGATE \/
        type_ m' = CUSTOM_METRIC_TYPE_DERIVED)).
  { intros i m r Hn Hd Hr.
    do 6 (destruct i as [|i];
          [ cbn in Hn; injection Hn as <-; cbn in Hd; try discriminate Hd;
            vm_compute in Hr; intuition (subst; earlier_metric) | ]).
    destruct i; discriminate Hn. }
  assert (Hclean : forall m,
     In m custom_metrics ->
     Registry.derived_or_drift m = true ->
     (forall r, In r (Expr.names (definition m)) -> ~ In r columns) /\
     ~ In "input_column" (Expr.templates (definition m))).
  { intros m Hin Hd. split.
    - intros r Hr Hc.
      destruct (In_nth_error _ _ Hin) as (i & Hi).
      destruct (Hrefs i m r Hi Hd Hr) as (j & m' & _ & Hj & Hname & _).
      apply nth_error_In in Hj. apply (Hcols m' Hj). rewrite Hname. exact Hc.
    - cbn in Hin.
      intuition (subst; try discriminate Hd);
        match goal with
        | H : In _ (Expr.templates _) |- _ =>
            vm_compute in H; intuition discriminate
        end. }
  split; [exact Hrefs|]. split; [exact Hclean|].
  intros m Hin H.
  destruct (Registry.derived_or_drift m) eqn:Hd.
  - destruct (Hclean m Hin Hd) as (Hnames & Htpl).
    destruct H as [(r & Hr & Hc)|Ht]; [destruct (Hnames r Hr Hc)|destruct (Htpl Ht)].
  - unfold Registry.derived_or_drift in Hd.
    destruct (type_ m); [reflexivity|discriminate|discriminate].
Qed.

(** * The claims at concrete services *)

Lemma svc_stuck_monitor n g : monitor_pending_for "main" "demo" svc_stuck n g.
Proof. intros k Hk. reflexivity. Qed.

Lemma svc_stuck_refresh n g : refresh_pending_for "main" "demo" svc_stuck n g.
Proof. intros k id Hk. eexists. split; reflexivity. Qed.



(** C2, refuted as stated: pending at the first fetch and active at the
    second, [awaitActive] fetches twice in a row and sleeps after the last
    fetch; its sleep does not lie between the fetches. *)
Lemma awaitActive_sleeps_after_the_last_fetch :
  outcome (awaitActive "main" "demo" svc_ok 1 g0) =
    Returned (info_of MONITOR_STATUS_ACTIVE) /\
  emitted (awaitActive "main" "demo" svc_ok 1 g0) =
    [EvGet 0 "main.demo.silver_transaction";
     EvGet 0 "main.demo.silver_transaction";
     EvSleep 10] /\
  sleeps_between_fetches (emitted (awaitActive "main" "demo" svc_ok 1 g0)) = false.
Proof. repeat split. Qed.

Lemma awaitActive_fetches_and_sleeps_witness :
  1 <= 2 /\ 2 - 1 <= 1 /\
  monitor_pending_for "main" "demo" svc_ok (2 - 1) g0 /\
  get_status "main" "demo" svc_ok (n_get g0 + (2 - 1)) = Some MONITOR_STATUS_ACTIVE /\
  count is_get (emitted (awaitActive "main" "demo" svc_ok 1 g0)) = 2 /\
  count is_sleep (emitted (awaitActive "main" "demo" svc_ok 1 g0)) = 2 - 1.
Proof.
  assert (Hp : monitor_pending_for "main" "demo" svc_ok (2 - 1) g0).
  { intros k Hk. destruct k; [reflexivity|simpl in Hk; lia]. }
  split; [lia|]. split; [simpl; lia|]. split; [exact Hp|]. split; [reflexivity|].
  destruct (awaitActive_fetches_and_sleeps "main" "demo" svc_ok 2 1 g0)
    as (_ & _ & Hg & Hs & _);
    [lia | simpl; lia | exact Hp | reflexivity | auto].
Defined.

(** C3, refuted as stated: pending at the first fetch and failed at the
    second, [awaitActive] sleeps 10 seconds after the fetch that observes
    FAILED, and only then raises; what it raises is the assertion error of
    every status other than ACTIVE. *)
Lemma awaitActive_sleeps_before_it_fails :
  emitted (awaitActive "main" "demo" svc_failed 1 g0) =
    [EvGet 0 "main.demo.silver_transaction";
     EvGet 0 "main.demo.silver_transaction";
     EvSleep 10] /\
  last_event (emitted (awaitActive "main" "demo" svc_failed 1 g0)) =
    Some (EvSleep 10) /\
  outcome (awaitActive "main" "demo" svc_failed 1 g0) =
    Raised (AssertionError (Some "Error creating monitor")).
Proof. repeat split. Qed.

Lemma awaitActive_failed_witness :
  1 <= 2 /\ 2 - 1 <= 1 /\
  monitor_pending_for "main" "demo" svc_failed (2 - 1) g0 /\
  get_status "main" "demo" svc_failed (n_get g0 + (2 - 1)) = Some MONITOR_STATUS_FAILED /\
  outcome (awaitActive "main" "demo" svc_failed 1 g0) =
    Raised (AssertionError (Some "Error creating monitor")) /\
  count is_get (emitted (awaitActive "main" "demo" svc_failed 1 g0)) = 2.
Proof.
  assert (Hp : monitor_pending_for "main" "demo" svc_failed (2 - 1) g0).
  { intros k Hk. destruct k; [reflexivity|simpl in Hk; lia]. }
  split; [lia|]. split; [simpl; lia|]. split; [exact Hp|]. split; [reflexivity|].
  destruct (awaitActive_failed "main" "demo" svc_failed 2 1 g0)
    as (Ho & _ & Hg & _);
    [lia | simpl; lia | exact Hp | reflexivity | auto].
Defined.

(** C4, refuted as stated: [create] is refused, and the cell ends normally;
    the next cell fetches the status, lists the refreshes and returns, as
    it does after a [create] that succeeded. *)
Lemma create_error_does_not_stop_the_notebook :
  create_resp svc_denied (create_request "main" "demo" "/cwd") =
    inl permission_denied /\
  outcome (create_cell "main" "demo" "/cwd" svc_denied g0) = Returned tt /\
  outcome ((create_cell "main" "demo" "/cwd" svc_denied ;;
            wait_cell "main" "demo" svc_denied 1) g0) =
    Returned {| refresh_id := 7; state := SUCCESS |} /\
  emitted ((create_cell "main" "demo" "/cwd" svc_denied ;;
            wait_cell "main" "demo" svc_denied 1) g0) =
    [EvPrint "Creating monitor for main.demo.silver_transaction";
     EvWorkspaceClient 1;
     EvCreate 1 (create_request "main" "demo" "/cwd");
     EvPrint "User does not have USE SCHEMA on Schema 'main.demo'.";
     EvGet 1 "main.demo.silver_transaction";
     EvListRefreshes 1 "main.demo.silver_transaction"].
Proof. repeat split. Qed.

Lemma create_or_update_error_is_printed_witness :
  (create_resp svc_denied (create_request "main" "demo" "/cwd") =
     inl permission_denied /\
   outcome (create_cell "main" "demo" "/cwd" svc_denied g0) = Returned tt /\
   count is_create (emitted (create_cell "main" "demo" "/cwd" svc_denied g0)) = 1) /\
  (update_resp svc_denied (update_request "main" "demo") = inl permission_denied /\
   outcome (update_cell "main" "demo" svc_denied g0) = Returned tt /\
   final (update_cell "main" "demo" svc_denied g0) = g0).
Proof.
  destruct (create_or_update_error_is_printed "main" "demo" "/cwd" svc_denied g0
              permission_denied 1) as [Hcreate Hupdate].
  split.
  - split; [reflexivity|].
    destruct (Hcreate eq_refl) as (Ho & He & _). split; [exact Ho|].
    rewrite He. reflexivity.
  - split; [reflexivity|].
    destruct (Hupdate eq_refl) as (Ho & _ & Hf & _). auto.
Defined.


(** C9, refuted as stated: the monitor lists the refreshes 7 and 5, and the
    service answers the fetch of refresh 7 with refresh 5; the second fetch
    then asks for refresh 5, which is in the list and is not its first
    element, and it is the refresh 5 that is awaited and returned. *)
Lemma a_refresh_other_than_the_first_is_fetched :
  list_refreshes_resp svc_other_refresh (TABLE_NAME "main" "demo") =
    inr [{| refresh_id := 7; state := PENDING |};
         {| refresh_id := 5; state := RUNNING |}] /\
  emitted (await_initial_refresh "main" "demo" svc_other_refresh 2 g0) =
    [EvListRefreshes 0 "main.demo.silver_transaction";
     EvGetRefresh 0 "main.demo.silver_transaction" 7;
     EvSleep 30;
     EvGetRefresh 0 "main.demo.silver_transaction" 5;
     EvSleep 30] /\
  outcome (await_initial_refresh "main" "demo" svc_other_refresh 2 g0) =
    Returned {| refresh_id := 5; state := SUCCESS |}.
Proof. repeat split. Qed.

Lemma only_the_first_refresh_is_polled_witness :
  list_refreshes_resp svc_ok (TABLE_NAME "main" "demo") =
    inr [{| refresh_id := 7; state := PENDING |};
         {| refresh_id := 5; state := RUNNING |}] /\
  refresh_pending {| refresh_id := 7; state := PENDING |} = true /\
  0 < 2 /\
  answers_the_refresh_asked "main" "demo" svc_ok /\
  (exists t,
     emitted (await_initial_refresh "main" "demo" svc_ok 2 g0) =
       EvListRefreshes (w g0) (TABLE_NAME "main" "demo") ::
       EvGetRefresh (w g0) (TABLE_NAME "main" "demo") 7 :: t) /\
  (exists t,
     emitted (await_initial_refresh "main" "demo" svc_ok 2 g0) =
       EvListRefreshes (w g0) (TABLE_NAME "main" "demo") :: t /\
     Forall (polls_refresh 7) t).
Proof.
  assert (Hecho : answers_the_refresh_asked "main" "demo" svc_ok).
  { intros k id run_info H. simpl in H. injection H as <-. reflexivity. }
  split; [reflexivity|]. split; [reflexivity|]. split; [lia|].
  split; [exact Hecho|].
  destruct (only_the_first_refresh_is_polled "main" "demo" svc_ok 2 g0)
    as (_ & _ & _ & Hfirst).
  destruct (Hfirst {| refresh_id := 7; state := PENDING |}
                   [{| refresh_id := 5; state := RUNNING |}] eq_refl)
    as (_ & _ & Hpoll & Hall).
  split; [apply Hpoll; [reflexivity|lia]|apply Hall, Hecho].
Defined.


Lemma validate_accepts_iff_references_resolved_witness :
  Registry.unique_names custom_metrics /\
  Registry.templates_reserved custom_metrics /\
  Registry.references_resolved (fun _ => false) custom_metrics /\
  Registry.validate (fun _ => false) [std_metric_derived; variance_metric_agg] =
    inl (Registry.UnknownReference "std" "variance").
Proof.
  destruct (validate_accepts_iff_references_resolved (fun _ => false))
    as (Hiff & _ & Hreversed).
  assert (Hu : Registry.unique_names custom_metrics).
  { unfold Registry.unique_names. cbn.
    repeat (constructor; [cbn; intuition discriminate|]). constructor. }
  assert (Ht : Registry.templates_reserved custom_metrics).
  { intros m Hin Hd. cbn in Hin.
    intuition (subst; try discriminate Hd; reflexivity). }
  split; [exact Hu|]. split; [exact Ht|]. split.
  - apply (Hiff custom_metrics Hu Ht). reflexivity.
  - apply Hreversed. reflexivity.
Defined.

Lemma custom_metrics_are_layered_witness :
  (forall m, In m custom_metrics -> ~ In (name m) raw_columns) /\
  (exists j m',
     j < 4 /\ nth_error custom_metrics j = Some m' /\ name m' = "variance" /\
     (type_ m' = CUSTOM_METRIC_TYPE_AGGREGATE \/
      type_ m' = CUSTOM_METRIC_TYPE_DERIVED)) /\
  ~ In "variance" raw_columns.
Proof.
  assert (Hcols : forall m, In m custom_metrics -> ~ In (name m) raw_columns).
  { intros m Hin Hc. cbn in Hin.
    intuition (subst; vm_compute in Hc; intuition discriminate). }
  assert (Hin : In "variance" (Expr.names (definition std_metric_derived)))
    by (left; reflexivity).
  destruct (custom_metrics_are_layered raw_columns Hcols) as (Hrefs & Hclean & _).
  split; [exact Hcols|]. split.
  - apply (Hrefs 4 std_metric_derived "variance" eq_refl eq_refl Hin).
  - apply (Hclean std_metric_derived); [cbn; tauto|reflexivity|exact Hin].
Defined.

(** * Further properties of the cells *)

Lemma bind_raises {A B} (c : M A) (k : A -> M B) g e g' t :
  c g = {| outcome := Raised e; final := g'; emitted := t |} ->
  bind c k g = {| outcome := Raised e; final := g'; emitted := t |}.
Proof. intros H. unfold bind. rewrite H. reflexivity. Qed.

Lemma bind_outcome_raised {A B} (c : M A) (k : A -> M B) g e :
  outcome (c g) = Raised e ->
  outcome (bind c k g) = Raised e /\ emitted (bind c k g) = emitted (c g) /\
  final (bind c k g) = final (c g).
Proof. intros H. unfold bind. rewrite H. auto. Qed.

Lemma state_eqb_true a b : state_eqb a b = true -> a = b.
Proof. destruct a, b; simpl; congruence. Qed.

Lemma answer_final {A} ev g (r : PyException + A) : final (answer ev g r) = g.
Proof. destruct r; reflexivity. Qed.

Lemma iter_bump_get_keeps_w n g : w (Nat.iter n bump_get g) = w g.
Proof. induction n; simpl; auto. Qed.

Lemma last_event_cons_snoc e t e' : last_event (e :: t ++ [e']) = Some e'.
Proof. rewrite app_comm_cons. apply last_event_snoc. Qed.

Section CellProperties.

Variables catalog dbName cwd : string.
Variable svc : Service.

Local Abbreviation T := (TABLE_NAME catalog dbName).
Local Abbreviation poll_monitor := (poll_monitor catalog dbName svc).
Local Abbreviation poll_refresh := (poll_refresh catalog dbName svc).
Local Abbreviation awaitActive := (awaitActive catalog dbName svc).
Local Abbreviation awaitRefresh := (awaitRefresh catalog dbName svc).
Local Abbreviation await_initial_refresh := (await_initial_refresh catalog dbName svc).
Local Abbreviation wait_cell := (wait_cell catalog dbName svc).
Local Abbreviation refresh_cell := (refresh_cell catalog dbName svc).
Local Abbreviation create_cell := (create_cell catalog dbName cwd svc).
Local Abbreviation update_cell := (update_cell catalog dbName svc).
Local Abbreviation create_request := (create_request catalog dbName cwd).
Local Abbreviation update_request := (update_request catalog dbName).
Local Abbreviation first_cells := (first_cells catalog dbName cwd svc).
Local Abbreviation update_and_refresh := (update_and_refresh catalog dbName svc).
Local Abbreviation monitor_round := (monitor_round catalog dbName).
Local Abbreviation refresh_round := (refresh_round catalog dbName).
Local Abbreviation monitor_pending_for := (monitor_pending_for catalog dbName svc).
Local Abbreviation refresh_pending_for := (refresh_pending_for catalog dbName svc).
Local Abbreviation get_raises_at := (get_raises_at catalog dbName svc).
Local Abbreviation get_refresh_raises_at := (get_refresh_raises_at catalog dbName svc).

(** ** A fetch that raises *)

Lemma poll_monitor_raises a g e :
  get_resp svc (n_get g) T = inl e ->
  poll_monitor a g =
  {| outcome := Raised e; final := bump_get g; emitted := [EvGet (w g) T] |}.
Proof.
  intros H. unfold poll_monitor, bind, quality_monitors_get.
  rewrite H. reflexivity.
Qed.

Lemma get_raises_at_next n g e :
  get_raises_at (S n) g e -> get_raises_at n (bump_get g) e.
Proof.
  unfold get_raises_at. cbn [bump_get n_get].
  replace (S (n_get g) + n) with (n_get g + S n) by lia. auto.
Qed.

Lemma monitor_loop_raises n : forall fuel a g e,
  n < fuel ->
  monitor_pending a = true ->
  monitor_pending_for n g ->
  get_raises_at n g e ->
  while_ fuel monitor_pending poll_monitor a g =
  {| outcome := Raised e; final := Nat.iter (S n) bump_get g;
     emitted := rounds n (monitor_round g) ++ [EvGet (w g) T] |}.
Proof.
  induction n as [|n IH]; intros fuel a g e Hf Ha Hp He;
    (destruct fuel as [|fuel]; [lia|]); rewrite while_iterate by assumption.
  - unfold get_raises_at in He. rewrite Nat.add_0_r in He.
    apply bind_raises. apply poll_monitor_raises, He.
  - destruct (monitor_pending_for_first catalog dbName svc n g Hp) as (i & Hg & Hpi).
    rewrite (bind_run _ _ _ _ _ _ (poll_monitor_run catalog dbName svc a g i Hg)).
    rewrite (IH fuel i (bump_get g) e); try assumption; try lia.
    + cbn [outcome final emitted]. rewrite <- Nat.iter_succ_r.
      rewrite rounds_succ, <- app_assoc. reflexivity.
    + apply monitor_pending_for_next, Hp.
    + apply get_raises_at_next, He.
Qed.

(** [awaitActive] when [m] fetches are answered PENDING and the next one
    raises [e]. *)
Lemma awaitActive_raises m fuel g e :
  m <= fuel ->
  monitor_pending_for m g ->
  get_raises_at m g e ->
  awaitActive fuel g =
  {| outcome := Raised e; final := Nat.iter (S m) bump_get g;
     emitted :=
       match m with
       | 0 => [EvGet (w g) T]
       | S m' => EvGet (w g) T :: rounds m' (monitor_round g) ++ [EvGet (w g) T]
       end |}.
Proof.
  intros Hf Hp He. unfold awaitActive.
  destruct m as [|m].
  - unfold get_raises_at in He. rewrite Nat.add_0_r in He.
    apply bind_raises. unfold quality_monitors_get. rewrite He. reflexivity.
  - destruct (monitor_pending_for_first catalog dbName svc m g Hp) as (i & Hg & Hpi).
    rewrite (bind_run _ _ _ _ _ _ (quality_monitors_get_run catalog dbName svc g i Hg)).
    rewrite (bind_raises _ _ (bump_get g) e (Nat.iter (S m) bump_get (bump_get g))
               (rounds m (monitor_round g) ++ [EvGet (w g) T])).
    + cbn [outcome final emitted]. rewrite <- Nat.iter_succ_r. reflexivity.
    + apply (monitor_loop_raises m fuel i (bump_get g) e); try assumption; try lia.
      * apply monitor_pending_for_next, Hp.
      * apply get_raises_at_next, He.
Qed.

(** X1.  An exception of a status fetch is not caught.  If the first N - 1
    status fetches are answered PENDING and the N-th raises [e],
    [awaitActive] raises [e]: it has made N fetches and N - 2 sleeps (none
    for N = 1), and the fetch that raised is its last action: no sleep and
    no assertion follows it. *)
Theorem awaitActive_fetch_error N fuel g e :
  1 <= N ->
  N - 1 <= fuel ->
  monitor_pending_for (N - 1) g ->
  get_raises_at (N - 1) g e ->
  outcome (awaitActive fuel g) = Raised e /\
  count is_get (emitted (awaitActive fuel g)) = N /\
  count is_sleep (emitted (awaitActive fuel g)) = N - 2 /\
  last_event (emitted (awaitActive fuel g)) = Some (EvGet (w g) T).
Proof.
  intros HN Hf Hp He.
  rewrite (awaitActive_raises (N - 1) fuel g e Hf Hp He). cbn [outcome emitted].
  split; [reflexivity|].
  destruct N as [|[|N]]; [lia| |].
  - cbn. auto.
  - replace (S (S N) - 1) with (S N) by lia. replace (S (S N) - 2) with N by lia.
    rewrite last_event_cons_snoc.
    change (EvGet (w g) T :: rounds N (monitor_round g) ++ [EvGet (w g) T])
      with ([EvGet (w g) T] ++ rounds N (monitor_round g) ++ [EvGet (w g) T]).
    rewrite !count_app, !count_rounds. cbn. repeat split; lia.
Qed.

Lemma poll_refresh_raises a g e :
  get_refresh_resp svc (n_get_refresh g) T (refresh_id a) = inl e ->
  poll_refresh a g =
  {| outcome := Raised e; final := bump_get_refresh g;
     emitted := [EvGetRefresh (w g) T (refresh_id a)] |}.
Proof.
  intros H. unfold poll_refresh, bind, quality_monitors_get_refresh.
  rewrite H. reflexivity.
Qed.

Lemma get_refresh_raises_at_next n g e :
  get_refresh_raises_at (S n) g e ->
  get_refresh_raises_at n (bump_get_refresh g) e.
Proof.
  intros H id. cbn [bump_get_refresh n_get_refresh].
  replace (S (n_get_refresh g) + n) with (n_get_refresh g + S n) by lia.
  apply H.
Qed.

Lemma refresh_loop_raises n : forall fuel a g e,
  n < fuel ->
  refresh_pending a = true ->
  refresh_pending_for n g ->
  get_refresh_raises_at n g e ->
  exists t id,
    outcome (while_ fuel refresh_pending poll_refresh a g) = Raised e /\
    emitted (while_ fuel refresh_pending poll_refresh a g) =
      t ++ [EvGetRefresh (w g) T id] /\
    refresh_polled n t.
Proof.
  induction n as [|n IH]; intros fuel a g e Hf Ha Hp He;
    (destruct fuel as [|fuel]; [lia|]); rewrite while_iterate by assumption.
  - pose proof (He (refresh_id a)) as H. rewrite Nat.add_0_r in H.
    rewrite (bind_raises _ _ _ _ _ _ (poll_refresh_raises a g e H)).
    exists [], (refresh_id a). cbn [outcome emitted app].
    split; [reflexivity|]. split; [reflexivity|apply refresh_polled_nil].
  - destruct (refresh_pending_for_first catalog dbName svc n g (refresh_id a) Hp)
      as (r & Hr & Hpr).
    rewrite (bind_run _ _ _ _ _ _ (poll_refresh_run catalog dbName svc a g r Hr)).
    cbn [outcome final emitted].
    destruct (IH fuel r (bump_get_refresh g) e) as (t & id & Ho & Hem & Hpolled);
      try assumption; try lia.
    + apply refresh_pending_for_next, Hp.
    + apply get_refresh_raises_at_next, He.
    + exists (refresh_round g (refresh_id a) ++ t), id.
      rewrite Ho, Hem. cbn [bump_get_refresh w].
      split; [reflexivity|]. split; [rewrite <- app_assoc; reflexivity|].
      apply refresh_polled_round, Hpolled.
Qed.


(** X3.  An exception of [list_refreshes] is not caught.  If the first
    N - 1 status fetches are answered PENDING, the N-th ACTIVE, and
    [list_refreshes] raises [e], the wait cell raises [e]: after the status
    fetches and their sleeps its only further action is the call that
    raised, and no refresh is fetched. *)
Theorem list_refreshes_error N fuel g e :
  1 <= N ->
  N - 1 <= fuel ->
  monitor_pending_for (N - 1) g ->
  get_status catalog dbName svc (n_get g + (N - 1)) = Some MONITOR_STATUS_ACTIVE ->
  list_refreshes_resp svc T = inl e ->
  outcome (wait_cell fuel g) = Raised e /\
  emitted (wait_cell fuel g) =
    EvGet (w g) T :: rounds (N - 1) [EvGet (w g) T; EvSleep 10] ++
    [EvListRefreshes (w g) T] /\
  count is_get_refresh (emitted (wait_cell fuel g)) = 0.
Proof.
  intros HN Hf Hp Ha Hl.
  destruct (get_status_inv catalog dbName svc _ _ Ha) as (info & Hi & Hs).
  assert (Hd : monitor_pending info = false)
    by (unfold monitor_pending; rewrite Hs; reflexivity).
  pose proof (awaitActive_exit catalog dbName svc (N - 1) fuel g info Hf Hp Hi Hd)
    as Hrun.
  rewrite Hs in Hrun. cbn [status_eqb] in Hrun.
  assert (Hcell : wait_cell fuel g =
    {| outcome := Raised e; final := Nat.iter (S (N - 1)) bump_get g;
       emitted := (EvGet (w g) T :: rounds (N - 1) (monitor_round g)) ++
                  [EvListRefreshes (w g) T] |}).
  { unfold wait_cell. rewrite (bind_run _ _ _ _ _ _ Hrun).
    unfold await_initial_refresh.
    rewrite (bind_raises _ _ _ e (Nat.iter (S (N - 1)) bump_get g)
               [EvListRefreshes (w g) T]).
    - reflexivity.
    - unfold quality_monitors_list_refreshes. rewrite Hl.
      cbn [answer]. rewrite iter_bump_get_keeps_w. reflexivity. }
  rewrite Hcell. cbn [outcome emitted].
  split; [reflexivity|]. split; [reflexivity|].
  change (EvGet (w g) T :: rounds (N - 1) (monitor_round g))
    with ([EvGet (w g) T] ++ rounds (N - 1) (monitor_round g)).
  rewrite !count_app, count_rounds. cbn. lia.
Qed.

(** ** What the cells keep and what they return *)

Lemma poll_monitor_final a g : final (poll_monitor a g) = bump_get g.
Proof.
  unfold poll_monitor, bind, quality_monitors_get.
  destruct (get_resp svc (n_get g) T); reflexivity.
Qed.

Lemma awaitActive_final (Q : Globals -> Prop) fuel g :
  (forall g', Q g' -> Q (bump_get g')) ->
  Q g -> Q (final (awaitActive fuel g)).
Proof.
  intros Hb HQ. unfold awaitActive. apply bind_final.
  - unfold quality_monitors_get. rewrite answer_final. auto.
  - intros info g1 H1. apply bind_final.
    + apply while_final; [|exact H1].
      intros a g' H. rewrite poll_monitor_final. auto.
    + intros info' g2 H2. apply bind_final; [rewrite assert_final; exact H2|auto].
Qed.

Lemma awaitRefresh_final (Q : Globals -> Prop) fuel a g :
  (forall g', Q g' -> Q (bump_get_refresh g')) ->
  Q g -> Q (final (awaitRefresh fuel a g)).
Proof.
  intros Hb HQ. unfold awaitRefresh. apply bind_final.
  - apply while_final; [|exact HQ].
    intros a0 g' H. rewrite (poll_refresh_final catalog dbName svc). auto.
  - intros r g1 H1. apply bind_final; [rewrite assert_final; exact H1|auto].
Qed.

Lemma await_initial_refresh_final (Q : Globals -> Prop) fuel g :
  (forall g', Q g' -> Q (bump_get_refresh g')) ->
  Q g -> Q (final (await_initial_refresh fuel g)).
Proof.
  intros Hb HQ. unfold await_initial_refresh. apply bind_final.
  - unfold quality_monitors_list_refreshes. rewrite answer_final. exact HQ.
  - intros refreshes g1 H1. apply bind_final; [rewrite assert_final; exact H1|].
    intros _ g2 H2. apply bind_final.
    + destruct refreshes; exact H2.
    + intros a g3 H3. apply awaitRefresh_final; assumption.
Qed.

Lemma wait_cell_final (Q : Globals -> Prop) fuel g :
  (forall g', Q g' -> Q (bump_get g')) ->
  (forall g', Q g' -> Q (bump_get_refresh g')) ->
  Q g -> Q (final (wait_cell fuel g)).
Proof.
  intros Hg Hr HQ. unfold wait_cell. apply bind_final.
  - apply awaitActive_final; assumption.
  - intros _ g1 H1. apply await_initial_refresh_final; assumption.
Qed.

Lemma awaitRefresh_returned fuel a g run_info :
  outcome (awaitRefresh fuel a g) = Returned run_info ->
  state run_info = SUCCESS.
Proof.
  unfold awaitRefresh. intros H.
  apply bind_returned_inv in H. destruct H as (r & _ & H).
  apply bind_returned_inv in H. destruct H as (u & Ha & H).
  apply assert_returned in Ha. cbn in H. injection H as <-.
  apply state_eqb_true, Ha.
Qed.

(** X4.  Whatever the service answers, a wait that returns has seen what it
    waited for: if the wait cell returns, [awaitActive] has returned an
    ACTIVE monitor and the refresh returned is in state SUCCESS; if the
    refresh cell returns, the refresh returned is in state SUCCESS. *)
Theorem cells_return_only_success fuel g run_info :
  (outcome (wait_cell fuel g) = Returned run_info ->
   state run_info = SUCCESS /\
   exists info,
     outcome (awaitActive fuel g) = Returned info /\
     status info = MONITOR_STATUS_ACTIVE) /\
  (outcome (refresh_cell fuel g) = Returned run_info ->
   state run_info = SUCCESS).
Proof.
  split; intros H.
  - unfold wait_cell in H.
    apply bind_returned_inv in H. destruct H as (info & Hi & H).
    split; [|exists info; split;
               [exact Hi|exact (awaitActive_returned catalog dbName svc fuel g info Hi)]].
    unfold await_initial_refresh in H.
    apply bind_returned_inv in H. destruct H as (refreshes & _ & H).
    apply bind_returned_inv in H. destruct H as (u & _ & H).
    apply bind_returned_inv in H. destruct H as (first & _ & H).
    exact (awaitRefresh_returned _ _ _ _ H).
  - unfold refresh_cell in H.
    apply bind_returned_inv in H. destruct H as (started & _ & H).
    apply bind_returned_inv in H. destruct H as (u & _ & H).
    exact (awaitRefresh_returned _ _ _ _ H).
Qed.

(** X5.  The update cell never raises, whatever the service answers: it
    calls [update] once and returns normally.  When the call returns,
    [lhm_monitor] is bound to its answer; when it raises, the error is
    printed and [lhm_monitor] is left as it was.  [w] is left as it was. *)
Theorem update_cell_never_raises g :
  outcome (update_cell g) = Returned tt /\
  count is_update (emitted (update_cell g)) = 1 /\
  emitted (update_cell g) =
    EvUpdate (w g) update_request ::
    match update_resp svc update_request with
    | inr _ => []
    | inl e => [EvPrint (str e)]
    end /\
  w (final (update_cell g)) = w g /\
  lhm_monitor (final (update_cell g)) =
    match update_resp svc update_request with
    | inr m => Some m
    | inl _ => lhm_monitor g
    end.
Proof.
  unfold update_cell, bind, try_except, quality_monitors_update. cbn.
  destruct (update_resp svc update_request); cbn; auto.
Qed.

(** ** The order of the calls and the client they go through *)

Lemma awaitActive_status_phase fuel g :
  Forall (status_phase (w g) T) (emitted (awaitActive fuel g)).
Proof.
  unfold awaitActive. apply bind_emits.
  - unfold quality_monitors_get. rewrite answer_emitted.
    repeat constructor.
  - intros info _. apply bind_emits.
    + unfold quality_monitors_get. rewrite answer_final.
      apply (while_emits (status_phase (w g) T) (fun _ g' => w g' = w g)).
      * intros a g' Hw. apply poll_monitor_emits.
        -- left. rewrite Hw. reflexivity.
        -- right. reflexivity.
      * intros a g' a' Hw _. rewrite poll_monitor_final. exact Hw.
      * reflexivity.
    + intros info' _. apply bind_emits; [rewrite assert_emitted|intros]; constructor.
Qed.

Lemma awaitRefresh_refresh_phase fuel a g :
  Forall (refresh_phase (w g) T) (emitted (awaitRefresh fuel a g)).
Proof.
  apply (awaitRefresh_emits catalog dbName svc (refresh_phase (w g) T)
           (fun _ g' => w g' = w g)).
  - intros a0 g' Hw. left. exists (refresh_id a0). rewrite Hw. reflexivity.
  - right. reflexivity.
  - intros a0 g' a' Hw _. exact Hw.
  - reflexivity.
Qed.

Lemma await_initial_refresh_shape fuel g :
  exists t,
    emitted (await_initial_refresh fuel g) = EvListRefreshes (w g) T :: t /\
    Forall (refresh_phase (w g) T) t.
Proof.
  unfold await_initial_refresh. rewrite bind_emitted.
  unfold quality_monitors_list_refreshes at 1 2 3. rewrite answer_emitted, answer_final.
  cbn [app]. eexists. split; [reflexivity|].
  destruct (outcome _) as [refreshes| |]; try constructor.
  apply bind_emits; [rewrite assert_emitted; constructor|].
  intros _ _. rewrite assert_final. apply bind_emits.
  - destruct refreshes; constructor.
  - intros a Ha. destruct refreshes; cbn; apply awaitRefresh_refresh_phase.
Qed.

(** X6.  Whatever the service answers and however the cell ends, the wait
    cell works in two phases that do not mix: first status fetches and
    sleeps of 10 seconds only; then, if at all, one call of
    [list_refreshes] followed by fetches of a refresh and sleeps of 30
    seconds only.  No status is fetched after the refreshes are listed, and
    every call is for [TABLE_NAME] through the client bound to [w] when
    the cell starts. *)
Theorem wait_cell_phases fuel g :
  exists t1 t2,
    emitted (wait_cell fuel g) = t1 ++ t2 /\
    Forall (status_phase (w g) T) t1 /\
    (t2 = [] \/
     exists t3,
       t2 = EvListRefreshes (w g) T :: t3 /\
       Forall (refresh_phase (w g) T) t3).
Proof.
  unfold wait_cell. rewrite bind_emitted.
  exists (emitted (awaitActive fuel g)). eexists. split; [reflexivity|].
  split; [apply awaitActive_status_phase|].
  destruct (outcome (awaitActive fuel g)); auto.
  right.
  destruct (await_initial_refresh_shape fuel (final (awaitActive fuel g)))
    as (t3 & Ht & Hf).
  rewrite (awaitActive_final (fun g' => w g' = w g)) in Ht, Hf by auto.
  eauto.
Qed.

Lemma status_phase_calls_through h ev :
  status_phase h T ev -> calls_through h ev.
Proof. intros [->| ->] h' H; cbn in H; congruence. Qed.

Lemma refresh_phase_calls_through h ev :
  refresh_phase h T ev -> calls_through h ev.
Proof. intros [(id & ->)| ->] h' H; cbn in H; congruence. Qed.

Lemma wait_cell_calls_through fuel g :
  Forall (calls_through (w g)) (emitted (wait_cell fuel g)).
Proof.
  unfold wait_cell. apply bind_emits.
  - eapply Forall_impl; [|apply awaitActive_status_phase].
    intros ev. apply status_phase_calls_through.
  - intros info _.
    destruct (await_initial_refresh_shape fuel (final (awaitActive fuel g)))
      as (t & Ht & Hf).
    rewrite (awaitActive_final (fun g' => w g' = w g)) in Ht, Hf by auto.
    rewrite Ht. constructor.
    + intros h' H. cbn in H. congruence.
    + eapply Forall_impl; [|exact Hf].
      intros ev. apply refresh_phase_calls_through.
Qed.

Lemma create_cell_run g :
  create_cell g =
  {| outcome := Returned tt;
     final :=
       {| w := next_handle g;
          lhm_monitor :=
            match create_resp svc create_request with
            | inr m => Some m
            | inl _ => lhm_monitor g
            end;
          next_handle := S (next_handle g); n_get := n_get g;
          n_get_refresh := n_get_refresh g |};
     emitted :=
       [EvPrint ("Creating monitor for " ++ T)%string;
        EvWorkspaceClient (next_handle g);
        EvCreate (next_handle g) create_request] ++
       match create_resp svc create_request with
       | inr _ => []
       | inl e => [EvPrint (str e)]
       end |}.
Proof.
  unfold create_cell, bind, try_except, quality_monitors_create. cbn.
  destruct (create_resp svc create_request); reflexivity.
Qed.

(** X7.  In the cells of lines 91-144 two clients are constructed, and the
    first is never used: every call of the service, whatever it answers,
    goes through the second, the one the create cell constructs, which is
    also the client bound to [w] when those cells are done. *)
Theorem first_client_is_never_used fuel g :
  exists t,
    emitted (first_cells fuel g) = EvWorkspaceClient (next_handle g) :: t /\
    In (EvWorkspaceClient (S (next_handle g))) t /\
    Forall (calls_through (S (next_handle g))) t /\
    w (final (first_cells fuel g)) = S (next_handle g).
Proof.
  set (g1 := {| w := next_handle g; lhm_monitor := lhm_monitor g;
                next_handle := S (next_handle g); n_get := n_get g;
                n_get_refresh := n_get_refresh g |}).
  unfold first_cells.
  rewrite (bind_run _ _ g tt g1 [EvWorkspaceClient (next_handle g)]) by reflexivity.
  rewrite (bind_run _ _ _ _ _ _ (create_cell_run g1)).
  cbn [outcome final emitted app next_handle w g1].
  eexists. split; [reflexivity|]. split; [right; left; reflexivity|]. split.
  - constructor; [intros h' H; discriminate H|].
    constructor; [intros h' H; discriminate H|].
    constructor; [intros h' H; cbn in H; congruence|].
    apply Forall_app. split.
    + destruct (create_resp svc create_request); repeat constructor.
      intros h' H. discriminate H.
    + match goal with
      | |- Forall _ (emitted (wait_cell fuel ?g2)) =>
          apply (wait_cell_calls_through fuel g2)
      end.
  - apply (wait_cell_final (fun g' => w g' = S (next_handle g))); auto.
Qed.

Lemma update_cell_run g :
  update_cell g =
  {| outcome := Returned tt;
     final :=
       {| w := w g;
          lhm_monitor :=
            match update_resp svc update_request with
            | inr m => Some m
            | inl _ => lhm_monitor g
            end;
          next_handle := next_handle g; n_get := n_get g;
          n_get_refresh := n_get_refresh g |};
     emitted :=
       EvUpdate (w g) update_request ::
       match update_resp svc update_request with
       | inr _ => []
       | inl e => [EvPrint (str e)]
       end |}.
Proof.
  unfold update_cell, bind, try_except, quality_monitors_update. cbn.
  destruct g as [w0 lhm nh ng ngr]. cbn.
  destruct (update_resp svc update_request); reflexivity.
Qed.

(** X8.  The calls of lines 379-415, whatever the service answers.  The
    update is called once and, whether it returned or raised (then its
    error is printed), [run_refresh] is called next, both through the
    client bound to [w] at the start.  If [run_refresh] raises, the cells
    raise its error with nothing more done and [w] as it was; if it
    returns, a client is constructed and bound to [w], and all that
    follows is fetches of a refresh through that client and sleeps of 30
    seconds. *)
Theorem update_and_refresh_calls fuel g :
  exists printed t,
    emitted (update_and_refresh fuel g) =
      EvUpdate (w g) update_request :: printed ++ EvRunRefresh (w g) T :: t /\
    printed =
      match update_resp svc update_request with
      | inr _ => []
      | inl e => [EvPrint (str e)]
      end /\
    match run_refresh_resp svc T with
    | inl e =>
        t = [] /\
        outcome (update_and_refresh fuel g) = Raised e /\
        w (final (update_and_refresh fuel g)) = w g
    | inr _ =>
        exists t',
          t = EvWorkspaceClient (next_handle g) :: t' /\
          Forall (refresh_phase (next_handle g) T) t' /\
          w (final (update_and_refresh fuel g)) = next_handle g
    end.
Proof.
  set (g1 := {| w := w g;
                lhm_monitor :=
                  match update_resp svc update_request with
                  | inr m => Some m
                  | inl _ => lhm_monitor g
                  end;
                next_handle := next_handle g; n_get := n_get g;
                n_get_refresh := n_get_refresh g |}).
  unfold update_and_refresh.
  rewrite (bind_run _ _ _ _ _ _ (update_cell_run g)). fold g1.
  cbn [outcome final emitted].
  exists (match update_resp svc update_request with
          | inr _ => []
          | inl e => [EvPrint (str e)]
          end).
  unfold refresh_cell, quality_monitors_run_refresh.
  destruct (run_refresh_resp svc T) as [e|started] eqn:Hrun.
  - exists []. split; [|split; [reflexivity|]].
    + rewrite (bind_raises _ _ g1 e g1 [EvRunRefresh (w g1) T]) by reflexivity.
      reflexivity.
    + rewrite (bind_raises _ _ g1 e g1 [EvRunRefresh (w g1) T]) by reflexivity.
      cbn. auto.
  - set (g2 := {| w := next_handle g1; lhm_monitor := lhm_monitor g1;
                  next_handle := S (next_handle g1); n_get := n_get g1;
                  n_get_refresh := n_get_refresh g1 |}).
    rewrite (bind_run _ _ g1 started g1 [EvRunRefresh (w g1) T]) by reflexivity.
    rewrite (bind_run _ _ g1 tt g2 [EvWorkspaceClient (next_handle g1)])
      by reflexivity.
    cbn [outcome final emitted app].
    eexists. split; [reflexivity|]. split; [reflexivity|].
    eexists. split; [reflexivity|]. split.
    + apply (awaitRefresh_refresh_phase fuel started g2).
    + apply (awaitRefresh_final (fun g' => w g' = next_handle g)); auto.
Qed.

(** ** Sleeps and fetches *)

Lemma count_cons p e t :
  count p (e :: t) = (if p e then 1 else 0) + count p t.
Proof. unfold count. cbn [filter]. destruct (p e); reflexivity. Qed.

Lemma slept_cons_other e t : is_sleep e = false -> slept (e :: t) = slept t.
Proof. destruct e; cbn; congruence. Qed.

(** In a trace made of rounds, the seconds slept are [d] for each sleep, and
    the sleeps are no more than the fetches. *)
Lemma fetch_sleep_rounds_counts fetch d t :
  (forall e, fetch e = true -> is_sleep e = false) ->
  fetch_sleep_rounds fetch d t ->
  slept t = (d * Z.of_nat (count is_sleep t))%Z /\
  count is_sleep t <= count fetch t.
Proof.
  intros Hfetch Hr. induction Hr as [|f Hf|f t Hf Hr (IHs & IHc)].
  - split; [cbn; lia|cbn; lia].
  - rewrite (slept_cons_other f []) by auto.
    rewrite !count_cons, Hf, (Hfetch f Hf). cbn. split; lia.
  - rewrite (slept_cons_other f) by auto.
    rewrite !(count_cons _ f), Hf, (Hfetch f Hf).
    rewrite !(count_cons _ (EvSleep d)). cbn [slept is_sleep].
    rewrite IHs. destruct (fetch (EvSleep d)); split; lia.
Qed.

Lemma monitor_loop_rounds fuel : forall a g,
  fetch_sleep_rounds is_get 10
    (emitted (while_ fuel monitor_pending poll_monitor a g)).
Proof.
  induction fuel as [|fuel IH]; intros a g;
    destruct (monitor_pending a) eqn:E;
    try (rewrite while_exit by exact E; constructor).
  - rewrite while_out_of_fuel by exact E. constructor.
  - rewrite while_iterate by exact E.
    destruct (get_resp svc (n_get g) T) as [e|i] eqn:R.
    + rewrite (bind_raises _ _ _ _ _ _ (poll_monitor_raises a g e R)).
      apply rounds_last. reflexivity.
    + rewrite (bind_run _ _ _ _ _ _ (poll_monitor_run catalog dbName svc a g i R)).
      apply rounds_more; [reflexivity|apply IH].
Qed.

Lemma refresh_loop_rounds fuel : forall a g,
  fetch_sleep_rounds is_get_refresh 30
    (emitted (while_ fuel refresh_pending poll_refresh a g)).
Proof.
  induction fuel as [|fuel IH]; intros a g;
    destruct (refresh_pending a) eqn:E;
    try (rewrite while_exit by exact E; constructor).
  - rewrite while_out_of_fuel by exact E. constructor.
  - rewrite while_iterate by exact E.
    destruct (get_refresh_resp svc (n_get_refresh g) T (refresh_id a))
      as [e|r] eqn:R.
    + rewrite (bind_raises _ _ _ _ _ _ (poll_refresh_raises a g e R)).
      apply rounds_last. reflexivity.
    + rewrite (bind_run _ _ _ _ _ _ (poll_refresh_run catalog dbName svc a g r R)).
      apply rounds_more; [reflexivity|apply IH].
Qed.

(** What [awaitActive] emits is its first fetch and, if that is answered,
    what its loop emits. *)
Lemma awaitActive_emitted fuel g :
  emitted (awaitActive fuel g) =
  EvGet (w g) T ::
  match get_resp svc (n_get g) T with
  | inr info => emitted (while_ fuel monitor_pending poll_monitor info (bump_get g))
  | inl _ => []
  end.
Proof.
  unfold awaitActive. rewrite bind_emitted. unfold quality_monitors_get.
  destruct (get_resp svc (n_get g) T) as [e|info];
    cbn [answer outcome emitted final app]; [reflexivity|].
  rewrite bind_emitted.
  destruct (outcome _); rewrite ?app_nil_r; try reflexivity.
  rewrite bind_emitted, assert_emitted.
  destruct (outcome _); rewrite ?app_nil_r; reflexivity.
Qed.

(** X9.  Whatever the service answers and however a wait ends, every sleep
    comes directly after a fetch made in the loop body.  What [awaitActive]
    does is its first fetch followed by rounds of a status fetch and a
    sleep of 10 seconds, in this order, the last round possibly the fetch
    alone: the first fetch is followed by no sleep.  What [awaitRefresh]
    does is rounds of a fetch of the refresh and a sleep of 30 seconds, in
    this order, the last possibly the fetch alone: it does not start with
    a sleep.  Hence the seconds slept are 10 (30) for each sleep, and the
    sleeps are at most the status fetches less one (at most the fetches of
    the refresh). *)
Theorem waits_sleep_once_per_loop_fetch fuel g run_info :
  (exists rest,
     emitted (awaitActive fuel g) = EvGet (w g) T :: rest /\
     fetch_sleep_rounds is_get 10 rest) /\
  fetch_sleep_rounds is_get_refresh 30 (emitted (awaitRefresh fuel run_info g)) /\
  (slept (emitted (awaitActive fuel g)) =
     (10 * Z.of_nat (count is_sleep (emitted (awaitActive fuel g))))%Z /\
   count is_sleep (emitted (awaitActive fuel g)) + 1 <=
     count is_get (emitted (awaitActive fuel g))) /\
  (slept (emitted (awaitRefresh fuel run_info g)) =
     (30 * Z.of_nat (count is_sleep (emitted (awaitRefresh fuel run_info g))))%Z /\
   count is_sleep (emitted (awaitRefresh fuel run_info g)) <=
     count is_get_refresh (emitted (awaitRefresh fuel run_info g))).
Proof.
  assert (Hactive : exists rest,
    emitted (awaitActive fuel g) = EvGet (w g) T :: rest /\
    fetch_sleep_rounds is_get 10 rest).
  { rewrite awaitActive_emitted. eexists. split; [reflexivity|].
    destruct (get_resp svc (n_get g) T); [constructor|apply monitor_loop_rounds]. }
  assert (Hrefresh : fetch_sleep_rounds is_get_refresh 30
                       (emitted (awaitRefresh fuel run_info g))).
  { rewrite (awaitRefresh_trace catalog dbName svc),
      <- (refresh_loop_trace catalog dbName svc).
    apply refresh_loop_rounds. }
  split; [exact Hactive|]. split; [exact Hrefresh|]. split.
  - destruct Hactive as (rest & E & Hr). rewrite E.
    destruct (fetch_sleep_rounds_counts is_get 10 rest) as (Hs & Hc);
      [intros e He; destruct e; cbn in *; congruence|exact Hr|].
    rewrite (slept_cons_other (EvGet (w g) T)) by reflexivity.
    rewrite !count_cons. cbn [is_sleep is_get]. rewrite Hs. split; lia.
  - apply fetch_sleep_rounds_counts; [|exact Hrefresh].
    intros e He. destruct e; cbn in *; congruence.
Qed.

(** ** The cells that read [lhm_monitor] *)

(** X10.  The table names that lines 162 and 180 read are those of the
    answer to [create], and nothing the wait does changes them.  In a
    session where [lhm_monitor] is unbound before the cells of lines
    91-144: if [create] raised, its error was printed and [lhm_monitor] is
    still unbound after the wait, so both lines raise [NameError]; if
    [create] returned [m], both lines read the table names of [m],
    whatever the status fetches answered. *)
Theorem table_names_come_from_create fuel g :
  lhm_monitor g = None ->
  (forall e,
     create_resp svc create_request = inl e ->
     profile_table (final (first_cells fuel g)) = inl (NameError "lhm_monitor") /\
     drift_table (final (first_cells fuel g)) = inl (NameError "lhm_monitor")) /\
  (forall m,
     create_resp svc create_request = inr m ->
     profile_table (final (first_cells fuel g)) =
       inr (profile_metrics_table_name m) /\
     drift_table (final (first_cells fuel g)) = inr (drift_metrics_table_name m)).
Proof.
  intros Hunbound.
  set (g1 := {| w := next_handle g; lhm_monitor := lhm_monitor g;
                next_handle := S (next_handle g); n_get := n_get g;
                n_get_refresh := n_get_refresh g |}).
  assert (Hkeep : lhm_monitor (final (first_cells fuel g)) =
                  match create_resp svc create_request with
                  | inr m => Some m
                  | inl _ => None
                  end).
  { unfold first_cells.
    rewrite (bind_run _ _ g tt g1 [EvWorkspaceClient (next_handle g)]) by reflexivity.
    rewrite (bind_run _ _ _ _ _ _ (create_cell_run g1)).
    cbn [final].
    apply (wait_cell_final
             (fun g' => lhm_monitor g' =
                        match create_resp svc create_request with
                        | inr m => Some m
                        | inl _ => None
                        end)); auto.
    cbn [lhm_monitor g1]. rewrite Hunbound. reflexivity. }
  unfold profile_table, drift_table. rewrite Hkeep.
  split; intros x Hx; rewrite Hx; auto.
Qed.

(** ** The client of the refresh cell *)

(** In the globals the cells can leave behind, [w] is bound to a client
    that has been constructed: the next client is a new one. *)
Lemma reached_client_allocated g :
  reached catalog dbName cwd svc g -> w g < next_handle g.
Proof.
  intros Hr. induction Hr as [g|g Hr IH|f g Hr IH|g Hr IH|f g Hr IH].
  - cbn. lia.
  - rewrite create_cell_run. cbn. lia.
  - apply (wait_cell_final (fun g' => w g' < next_handle g')); auto.
  - rewrite update_cell_run. cbn. exact IH.
  - unfold refresh_cell. apply (bind_final (fun g' => w g' < next_handle g')).
    + unfold quality_monitors_run_refresh. rewrite answer_final. exact IH.
    + intros a g1 H1. apply (bind_final (fun g' => w g' < next_handle g')).
      * cbn. lia.
      * intros _ g2 H2. apply awaitRefresh_final; auto.
Qed.

Lemma refresh_trace_polls_through fuel h : forall k a,
  Forall (polls_through h) (refresh_trace catalog dbName svc fuel h k a).
Proof.
  induction fuel as [|fuel IH]; intros k a; cbn [refresh_trace];
    destruct (refresh_pending a); try constructor.
  - reflexivity.
  - destruct (get_refresh_resp svc k T (refresh_id a)); constructor.
    + exact I.
    + apply IH.
Qed.

(** C7.  In the refresh cell, run in globals the cells can leave behind, the
    refresh is requested through the client bound to [w]; a new client is
    constructed next and bound to [w], and it is not the client that
    requested the refresh; what follows is the refresh loop run through the
    new client, and nothing else, and [w] is the new client when the cell
    ends.  If the refresh requested is PENDING or RUNNING, the loop's first
    action is a fetch of that refresh through the new client; every fetch
    of the loop goes through the new client; if the refresh is neither
    PENDING nor RUNNING, there is no fetch. *)
Theorem refresh_is_polled_through_a_new_client g fuel run_info :
  reached catalog dbName cwd svc g ->
  run_refresh_resp svc T = inr run_info ->
  next_handle g <> w g /\
  w (final (refresh_cell fuel g)) = next_handle g /\
  emitted (refresh_cell fuel g) =
    EvRunRefresh (w g) T :: EvWorkspaceClient (next_handle g) ::
    refresh_trace catalog dbName svc fuel (next_handle g) (n_get_refresh g)
      run_info /\
  Forall (polls_through (next_handle g))
    (refresh_trace catalog dbName svc fuel (next_handle g) (n_get_refresh g)
       run_info) /\
  (refresh_pending run_info = true -> 0 < fuel ->
   exists t,
     emitted (refresh_cell fuel g) =
     EvRunRefresh (w g) T :: EvWorkspaceClient (next_handle g) ::
     EvGetRefresh (next_handle g) T (refresh_id run_info) :: t) /\
  (refresh_pending run_info = false ->
   emitted (refresh_cell fuel g) =
   [EvRunRefresh (w g) T; EvWorkspaceClient (next_handle g)]).
Proof.
  intros Hreached Hrun.
  pose proof (reached_client_allocated g Hreached) as Hfresh.
  split; [lia|].
  set (g' := {| w := next_handle g; lhm_monitor := lhm_monitor g;
                next_handle := S (next_handle g); n_get := n_get g;
                n_get_refresh := n_get_refresh g |}).
  assert (Hcell : refresh_cell fuel g =
    {| outcome := outcome (awaitRefresh fuel run_info g');
       final := final (awaitRefresh fuel run_info g');
       emitted := EvRunRefresh (w g) T :: EvWorkspaceClient (next_handle g) ::
                  emitted (awaitRefresh fuel run_info g') |}).
  { unfold refresh_cell.
    rewrite (bind_run _ _ g run_info g [EvRunRefresh (w g) T])
      by (unfold quality_monitors_run_refresh; rewrite Hrun; reflexivity).
    rewrite (bind_run _ _ g tt g' [EvWorkspaceClient (next_handle g)])
      by reflexivity.
    reflexivity. }
  rewrite Hcell. cbn [final emitted].
  rewrite (awaitRefresh_trace catalog dbName svc). cbn [w n_get_refresh g'].
  split; [apply (awaitRefresh_final (fun g0 => w g0 = next_handle g)); auto|].
  split; [reflexivity|].
  split; [apply refresh_trace_polls_through|].
  split.
  - intros Hp Hf. destruct fuel as [|fuel']; [lia|].
    cbn [refresh_trace]. rewrite Hp. eauto.
  - intros Hp. destruct fuel; cbn [refresh_trace]; rewrite Hp; reflexivity.
Qed.

End CellProperties.

(** * The further properties at concrete services *)

Lemma awaitActive_fetch_error_witness :
  1 <= 2 /\ 2 - 1 <= 1 /\
  monitor_pending_for "main" "demo" svc_flaky (2 - 1) g0 /\
  get_raises_at "main" "demo" svc_flaky (2 - 1) g0 unavailable /\
  outcome (awaitActive "main" "demo" svc_flaky 1 g0) = Raised unavailable /\
  emitted (awaitActive "main" "demo" svc_flaky 1 g0) =
    [EvGet 0 "main.demo.silver_transaction";
     EvGet 0 "main.demo.silver_transaction"].
Proof.
  assert (Hp : monitor_pending_for "main" "demo" svc_flaky (2 - 1) g0).
  { intros k Hk. destruct k; [reflexivity|simpl in Hk; lia]. }
  split; [lia|]. split; [simpl; lia|]. split; [exact Hp|]. split; [reflexivity|].
  destruct (awaitActive_fetch_error "main" "demo" svc_flaky 2 1 g0 unavailable)
    as (Ho & _); [lia | simpl; lia | exact Hp | reflexivity |].
  split; [exact Ho|reflexivity].
Defined.


Lemma list_refreshes_error_witness :
  1 <= 1 /\ 1 - 1 <= 0 /\
  monitor_pending_for "main" "demo" svc_no_listing (1 - 1) g0 /\
  get_status "main" "demo" svc_no_listing (n_get g0 + (1 - 1)) =
    Some MONITOR_STATUS_ACTIVE /\
  list_refreshes_resp svc_no_listing (TABLE_NAME "main" "demo") = inl unavailable /\
  outcome (wait_cell "main" "demo" svc_no_listing 0 g0) = Raised unavailable /\
  emitted (wait_cell "main" "demo" svc_no_listing 0 g0) =
    [EvGet 0 "main.demo.silver_transaction";
     EvListRefreshes 0 "main.demo.silver_transaction"].
Proof.
  assert (Hp : monitor_pending_for "main" "demo" svc_no_listing (1 - 1) g0).
  { intros k Hk. simpl in Hk. lia. }
  split; [lia|]. split; [simpl; lia|]. split; [exact Hp|].
  split; [reflexivity|]. split; [reflexivity|].
  destruct (list_refreshes_error "main" "demo" svc_no_listing 1 0 g0 unavailable)
    as (Ho & He & _); [lia | simpl; lia | exact Hp | reflexivity | reflexivity |].
  split; [exact Ho|exact He].
Defined.

Lemma cells_return_only_success_witness :
  outcome (wait_cell "main" "demo" svc_ok 2 g0) =
    Returned {| refresh_id := 7; state := SUCCESS |} /\
  (exists info,
     outcome (awaitActive "main" "demo" svc_ok 2 g0) = Returned info /\
     status info = MONITOR_STATUS_ACTIVE) /\
  outcome (refresh_cell "main" "demo" svc_ok 2 g0) =
    Returned {| refresh_id := 8; state := SUCCESS |}.
Proof.
  assert (Hw : outcome (wait_cell "main" "demo" svc_ok 2 g0) =
               Returned {| refresh_id := 7; state := SUCCESS |}) by reflexivity.
  destruct (cells_return_only_success "main" "demo" svc_ok 2 g0
              {| refresh_id := 7; state := SUCCESS |}) as (Hwait & _).
  split; [exact Hw|]. split; [apply (Hwait Hw)|reflexivity].
Defined.

Lemma table_names_come_from_create_witness :
  lhm_monitor g0 = None /\
  create_resp svc_denied (create_request "main" "demo" "/cwd") =
    inl permission_denied /\
  profile_table (final (first_cells "main" "demo" "/cwd" svc_denied 1 g0)) =
    inl (NameError "lhm_monitor") /\
  drift_table (final (first_cells "main" "demo" "/cwd" svc_denied 1 g0)) =
    inl (NameError "lhm_monitor").
Proof.
  split; [reflexivity|]. split; [reflexivity|].
  destruct (table_names_come_from_create "main" "demo" "/cwd" svc_denied 1 g0 eq_refl)
    as (Hraised & _).
  apply (Hraised permission_denied eq_refl).
Defined.

(** The globals of the session of [svc_ok] before its refresh cell: the
    create, wait and update cells have been run after line 91. *)
Lemma svc_ok_reaches_the_refresh_cell :
  reached "main" "demo" "/cwd" svc_ok
    (final (update_cell "main" "demo" svc_ok
       (final (wait_cell "main" "demo" svc_ok 2
          (final (create_cell "main" "demo" "/cwd" svc_ok
             (final (new_WorkspaceClient g_start)))))))).
Proof. repeat constructor. Qed.

Lemma refresh_is_polled_through_a_new_client_witness :
  run_refresh_resp svc_ok (TABLE_NAME "main" "demo") =
    inr {| refresh_id := 8; state := PENDING |} /\
  refresh_pending {| refresh_id := 8; state := PENDING |} = true /\
  0 < 2 /\
  exists g,
    reached "main" "demo" "/cwd" svc_ok g /\
    w g = 1 /\ next_handle g = 2 /\
    w (final (refresh_cell "main" "demo" svc_ok 2 g)) = 2 /\
    exists t,
      emitted (refresh_cell "main" "demo" svc_ok 2 g) =
      EvRunRefresh 1 "main.demo.silver_transaction" ::
      EvWorkspaceClient 2 ::
      EvGetRefresh 2 "main.demo.silver_transaction" 8 :: t.
Proof.
  split; [reflexivity|]. split; [reflexivity|]. split; [lia|].
  eexists. split; [exact svc_ok_reaches_the_refresh_cell|].
  split; [reflexivity|]. split; [reflexivity|].
  destruct (refresh_is_polled_through_a_new_client "main" "demo" "/cwd" svc_ok _ 2
              {| refresh_id := 8; state := PENDING |}
              svc_ok_reaches_the_refresh_cell eq_refl)
    as (_ & Hw & _ & _ & Hpoll & _).
  split; [exact Hw|]. apply Hpoll; [reflexivity|lia].
Defined.
